(** * bootstrap-admin: the admin-account upsert of [scripts/bootstrap-admin.js]

    A shallow embedding of the script: its three validators, the
    find-or-create update of the user collection, and the
    load / derive / upsert / persist pipeline of [main], followed by the
    properties the specification states about them.

    Conventions of the embedding.
    - A JavaScript string is a [string]; one [ascii] stands for one UTF-16
      code unit in the range 0..255, so [String.length] is [.length].  The
      whitespace set of [trim] and of the regular expression [\s], and the
      case mapping of [toLowerCase], are the ECMAScript ones restricted to
      that range.
    - [null] as the "invalid" result of a validator is [None].
    - Numbers that stand for positions in a string are in [Z], because
      [indexOf] answers [-1]. *)

From Stdlib Require Import String Ascii List Bool Arith ZArith Lia.
From Stdlib.Strings Require Import Byte.
From stdpp Require Import base list.
Import ListNotations.

Local Open Scope string_scope.
Local Open Scope nat_scope.

(** ** JavaScript string primitives *)

Module JsString.

Definition code (c : ascii) : nat := nat_of_ascii c.

(** White space and line terminators below U+0100: TAB, LF, VT, FF, CR,
    SPACE and NO-BREAK SPACE.  [String.prototype.trim] strips them and
    the class [\s] matches them. *)
Definition is_space (c : ascii) : bool :=
  let n := code c in
  ((9 <=? n) && (n <=? 13)) || (n =? 32) || (n =? 160).

Fixpoint trimStart (s : string) : string :=
  match s with
  | String c r => if is_space c then trimStart r else s
  | EmptyString => EmptyString
  end.

Fixpoint trimEnd (s : string) : string :=
  match s with
  | String c r =>
      match trimEnd r with
      | EmptyString => if is_space c then EmptyString else String c EmptyString
      | r' => String c r'
      end
  | EmptyString => EmptyString
  end.

Definition trim (s : string) : string := trimEnd (trimStart s).

(** [toLowerCase] on one code unit: A-Z, and the Latin-1 capitals
    U+00C0..U+00DE except the multiplication sign U+00D7. *)
Definition lower_char (c : ascii) : ascii :=
  let n := code c in
  if ((65 <=? n) && (n <=? 90))
     || ((192 <=? n) && (n <=? 222) && negb (n =? 215))
  then ascii_of_nat (n + 32) else c.

Fixpoint toLowerCase (s : string) : string :=
  match s with
  | String c r => String (lower_char c) (toLowerCase r)
  | EmptyString => EmptyString
  end.

Definition len (s : string) : Z := Z.of_nat (String.length s).

(** [!s] for a string. *)
Definition is_empty (s : string) : bool :=
  match s with EmptyString => true | _ => false end.

(** [s.indexOf(c)] for a one-character needle, [-1] when absent. *)
Fixpoint indexOf (c : ascii) (s : string) : Z :=
  match s with
  | EmptyString => (-1)%Z
  | String d r =>
      if Ascii.eqb d c then 0%Z
      else match indexOf c r with
           | Zneg _ => (-1)%Z
           | i => (i + 1)%Z
           end
  end.

Fixpoint take (n : nat) (s : string) : string :=
  match n, s with
  | S k, String c r => String c (take k r)
  | _, _ => EmptyString
  end.

Fixpoint drop (n : nat) (s : string) : string :=
  match n, s with
  | S k, String _ r => drop k r
  | _, _ => s
  end.

(** [s.slice(a, b)] and [s.slice(a)] for [0 <= a <= b]; the script calls
    them with such arguments only. *)
Definition slice (s : string) (a b : Z) : string :=
  take (Z.to_nat (b - a)) (drop (Z.to_nat a) s).

Definition slice_from (s : string) (a : Z) : string := drop (Z.to_nat a) s.

Fixpoint startsWith (s p : string) : bool :=
  match p, s with
  | EmptyString, _ => true
  | String a p', String b s' => Ascii.eqb a b && startsWith s' p'
  | String _ _, EmptyString => false
  end.

(** [s.includes(p)]: [p] starts at some position of [s]. *)
Fixpoint includes (s p : string) : bool :=
  startsWith s p ||
  match s with
  | String _ r => includes r p
  | EmptyString => false
  end.

(** [s.endsWith(p)]: [p] starts at position [s.length - p.length]. *)
Definition endsWith (s p : string) : bool :=
  (String.length p <=? String.length s) &&
  String.eqb (drop (String.length s - String.length p) s) p.

Fixpoint all_chars (p : ascii -> bool) (s : string) : bool :=
  match s with
  | String c r => p c && all_chars p r
  | EmptyString => true
  end.

Fixpoint some_char (p : ascii -> bool) (s : string) : bool :=
  match s with
  | String c r => p c || some_char p r
  | EmptyString => false
  end.

End JsString.

(** ** The regular expressions of the script

    Only two shapes occur: [/^[class]+$/] (no [m] flag, so the anchors are
    the ends of the input) and the unanchored one-character test [/\s/]. *)

Module Regex.
Import JsString.

Inductive item : Type :=
| Range (lo hi : ascii)
| One (c : ascii).

Definition class := list item.

Definition item_has (c : ascii) (i : item) : bool :=
  match i with
  | Range lo hi => (code lo <=? code c) && (code c <=? code hi)
  | One d => Ascii.eqb d c
  end.

Definition class_has (k : class) (c : ascii) : bool := existsb (item_has c) k.

(** [/^[k]+$/.test(s)] *)
Definition test_plus (k : class) (s : string) : bool :=
  negb (is_empty s) && all_chars (class_has k) s.

(** [/\s/.test(s)] *)
Definition test_space (s : string) : bool := some_char is_space s.

(** [[a-zA-Z0-9_.-]] *)
Definition username_class : class :=
  [Range "a" "z"; Range "A" "Z"; Range "0" "9"; One "_"; One "."; One "-"]%char.

(** [[a-z0-9.!#$%&'*+/=?^_`{|}~-]] *)
Definition local_class : class :=
  [Range "a" "z"; Range "0" "9"; One "."; One "!"; One "#"; One "$";
   One "%"; One "&"; One "'"; One "*"; One "+"; One "/"; One "=";
   One "?"; One "^"; One "_"; One "`"; One "{"; One "|"; One "}";
   One "~"; One "-"]%char.

(** [[a-z0-9.-]] *)
Definition domain_class : class :=
  [Range "a" "z"; Range "0" "9"; One "."; One "-"]%char.

End Regex.

(** ** The validators (lines 27-57) *)

Import JsString Regex.

(** [String(raw || "")] is [raw] for every string [raw]. *)
Definition cleanUsername (raw : string) : option string :=
  let u := trim raw in
  if ((len u <? 3) || (len u >? 32))%Z then None
  else if negb (test_plus username_class u) then None
  else Some u.

Definition normalizePassword (raw : string) : option string :=
  let p := raw in
  if ((len p <? 8) || (len p >? 256))%Z then None
  else Some p.

Definition normalizeEmail (raw : string) : option string :=
  let e := toLowerCase (trim raw) in
  if is_empty e then None
  else if (len e >? 254)%Z then None
  else if test_space e then None
  else
    let at_ := indexOf "@" e in
    if ((at_ <=? 0) || (at_ =? len e - 1))%Z then None
    else
      let local := slice e 0 at_ in
      let domain := slice_from e (at_ + 1) in
      if (len local >? 64)%Z then None
      else if (len domain <? 3)%Z then None
      else if negb (includes domain ".") then None
      else if negb (test_plus local_class local) then None
      else if negb (test_plus domain_class domain) then None
      else if startsWith domain "." || endsWith domain "." then None
      else if includes domain ".." then None
      else Some e.

(** ** JSON values and the JavaScript operations applied to them

    The values handled by [main] all come from [JSON.parse] or are built
    from literals, so a value is a JSON tree.  A number is kept as the text
    [Number::toString] gives for it: the script looks at a number only
    through [typeof], truthiness and [String(...)].  A literal beyond the
    range of a double, such as [1e999], is read as [Infinity] or
    [-Infinity]; [JSON.stringify] writes every other number as that same
    text and these two as [null].  An object is its own properties in the
    order JavaScript lists them, which for the names the script assigns
    is the order of insertion; reading uses the first entry of a key and
    assignment replaces it in place or appends. *)

#[local] Set Warnings "-register-all".

Inductive json : Type :=
| JNull
| JBool (b : bool)
| JNum (repr : string)
| JStr (s : string)
| JArr (elems : list json)
| JObj (props : list (string * json)).

Inductive errno : Type := ENOENT | EACCES | EISDIR | ENOSPC | EIO.

Inductive error : Type :=
| SystemError (e : errno)
| SyntaxError
| TypeError
| ScryptError.

(** How an asynchronous step ends: with a value, with a thrown exception,
    or with [process.exit(code)], which no [catch] intercepts.  A pure
    computation that can only return or throw has type [error + A], [inl]
    being the exception. *)
Inductive completion (A : Type) : Type :=
| Normal (a : A)
| Throw (e : error)
| Exit (status : nat).
Arguments Normal {A} a.
Arguments Throw {A} e.
Arguments Exit {A} status.

Module Js.

Definition props := list (string * json).

Fixpoint lookup_prop (k : string) (ps : props) : option json :=
  match ps with
  | [] => None
  | (k', v) :: r => if String.eqb k' k then Some v else lookup_prop k r
  end.

Fixpoint assign_prop (k : string) (v : json) (ps : props) : props :=
  match ps with
  | [] => [(k, v)]
  | (k', v') :: r =>
      if String.eqb k' k then (k, v) :: r else (k', v') :: assign_prop k v r
  end.

(** [v.k] for a value [v] that is neither [null] nor [undefined]; [None]
    is [undefined].  Only objects have own named properties here, and no
    name the script reads ([users], [username], [quota], [unlocked],
    [contentTokens], [createdAt]) exists on a built-in prototype. *)
Definition get (v : json) (k : string) : option json :=
  match v with
  | JObj ps => lookup_prop k ps
  | _ => None
  end.

(** ToBoolean. *)
Definition truthy (v : json) : bool :=
  match v with
  | JNull => false
  | JBool b => b
  | JNum r => negb (String.eqb r "0")
  | JStr s => negb (is_empty s)
  | JArr _ | JObj _ => true
  end.

(** ToBoolean of a property read, [undefined] being falsy. *)
Definition truthy_opt (o : option json) : bool :=
  match o with Some v => truthy v | None => false end.

(** [typeof o === "number"] *)
Definition is_number (o : option json) : bool :=
  match o with Some (JNum _) => true | _ => false end.

(** [Array.isArray(o)] *)
Definition isArray (o : option json) : bool :=
  match o with Some (JArr _) => true | _ => false end.

(** [String(v)].  An array is joined with commas, [null] elements giving
    the empty string.  A plain object gives ["[object Object]"] through
    [Object.prototype.toString], unless it has an own property
    [toString]: a parsed value is never callable, [valueOf] then yields
    the object itself, and the conversion throws a TypeError. *)
Fixpoint to_string (v : json) : error + string :=
  match v with
  | JNull => inr "null"
  | JBool true => inr "true"
  | JBool false => inr "false"
  | JNum r => inr r
  | JStr s => inr s
  | JArr l =>
      (fix join (l : list json) : error + string :=
         match l with
         | [] => inr ""
         | x :: r =>
             match (match x with JNull => inr "" | _ => to_string x end) with
             | inr e =>
                 match r with
                 | [] => inr e
                 | _ :: _ =>
                     match join r with
                     | inr j => inr (e ++ "," ++ j)
                     | inl err => inl err
                     end
                 end
             | inl err => inl err
             end
         end) l
  | JObj ps =>
      match lookup_prop "toString" ps with
      | Some _ => inl TypeError
      | None => inr "[object Object]"
      end
  end.

(** [String(o)] where [o] may be [undefined]. *)
Definition String_ (o : option json) : error + string :=
  match o with
  | None => inr "undefined"
  | Some v => to_string v
  end.

(** [Number.isFinite] on a number read by [JSON.parse], which is never
    [NaN]. *)
Definition is_finite (repr : string) : bool :=
  negb (String.eqb repr "Infinity") && negb (String.eqb repr "-Infinity").

(** What [JSON.stringify] writes for the properties of an object, given
    what it writes for a value. *)
Definition serialized_props (f : json -> json) (ps : props) : props :=
  List.map (fun kv => (fst kv, f (snd kv))) ps.

(** The value [JSON.parse] reads from the text [JSON.stringify(v, null, 2)]:
    [v] with every number that is not finite replaced by [null], at any
    depth.  No value here is [undefined], a function or a symbol, none
    has a callable [toJSON], and every other value is written in a form
    that reads back as itself. *)
Fixpoint serialized (v : json) : json :=
  match v with
  | JNum r => if is_finite r then JNum r else JNull
  | JArr l => JArr (List.map serialized l)
  | JObj ps => JObj (serialized_props serialized ps)
  | JNull | JBool _ | JStr _ => v
  end.

End Js.

(** ** Hexadecimal rendering of a [Buffer] *)

Definition hex_digit (n : N) : ascii :=
  match n with
  | 0 => "0" | 1 => "1" | 2 => "2" | 3 => "3" | 4 => "4" | 5 => "5"
  | 6 => "6" | 7 => "7" | 8 => "8" | 9 => "9" | 10 => "a" | 11 => "b"
  | 12 => "c" | 13 => "d" | 14 => "e" | _ => "f"
  end%N%char.

Definition hex_byte (b : byte) : string :=
  let n := Byte.to_N b in
  String (hex_digit (n / 16)) (String (hex_digit (n mod 16)) EmptyString).

(** [buf.toString("hex")] *)
Fixpoint toHex (buf : list byte) : string :=
  match buf with
  | [] => EmptyString
  | b :: r => hex_byte b ++ toHex r
  end.

(** ** The process environment, the host and the file system *)

(** The environment variables the script reads; [None] is an unset
    variable.  [USERS_FILE] is the resolved path of the store. *)
Record env : Type := {
  env_ADMIN_USER : option string;
  env_ADMIN_USERNAME : option string;
  env_ADMIN_PASS : option string;
  env_ADMIN_PASSWORD : option string;
  env_ADMIN_EMAIL : option string;
  USERS_FILE : string
}.

(** What a file holds, as [JSON.parse] sees it: text it rejects, or text
    that parses to [v]. *)
Inductive text : Type :=
| Garbage (raw : string)
| Json (v : json).

Inductive file : Type :=
| Missing
| Unreadable (e : errno)
| Holds (t : text).

(** What one run gets from outside: the clock, the random generator, and
    whether the two writing calls fail.  A failing [writeFile] also says
    what it leaves at the temporary path. *)
Record host : Type := {
  now : string;
  randomBytes16 : list byte;
  randomUUID : string;
  write_fault : option (errno * file);
  rename_fault : option errno
}.

Inductive syscall : Type := Mkdir | ReadFile | WriteFile | Rename.

Record world : Type := {
  users_file : file;
  tmp_file : file;
  trace : list syscall;
  stdout : list string;
  stderr : list string
}.

Definition traced (c : syscall) (w : world) : world :=
  {| users_file := users_file w; tmp_file := tmp_file w;
     trace := trace w ++ [c]; stdout := stdout w; stderr := stderr w |}.

(** ** A state-and-completion monad for the asynchronous body *)

Definition M (A : Type) : Type := world -> completion A * world.

Definition ret {A} (a : A) : M A := fun w => (Normal a, w).

Definition bind {A B} (m : M A) (k : A -> M B) : M B :=
  fun w =>
    match m w with
    | (Normal a, w') => k a w'
    | (Throw e, w') => (Throw e, w')
    | (Exit c, w') => (Exit c, w')
    end.

(** A pure computation inside the body: [inl] throws. *)
Definition lift {A} (c : error + A) : M A :=
  fun w =>
    match c with
    | inr a => (Normal a, w)
    | inl err => (Throw err, w)
    end.

(** [process.exit(code)] *)
Definition process_exit {A} (code : nat) : M A := fun w => (Exit code, w).

(** [try { body } catch { handler }]: a thrown exception runs the handler,
    a process exit does not. *)
Definition try_catch {A} (body : M A) (handler : error -> M A) : M A :=
  fun w =>
    match body w with
    | (Throw e, w') => handler e w'
    | r => r
    end.

Declare Scope js_scope.
Delimit Scope js_scope with js.
Notation "x <- m ;; k" := (bind m (fun x => k))
  (at level 100, m at next level, right associativity) : js_scope.
Notation "m ;;; k" := (bind m (fun _ => k))
  (at level 100, right associativity) : js_scope.
Local Open Scope js_scope.

Definition console_log (s : string) : M unit :=
  fun w =>
    (Normal tt,
     {| users_file := users_file w; tmp_file := tmp_file w;
        trace := trace w; stdout := stdout w ++ [s]; stderr := stderr w |}).

Definition console_error (s : string) : M unit :=
  fun w =>
    (Normal tt,
     {| users_file := users_file w; tmp_file := tmp_file w;
        trace := trace w; stdout := stdout w; stderr := stderr w ++ [s] |}).

(** Lines 17-22. *)
Definition usage {A} (msg : string) : M A :=
  console_error msg ;;;
  console_error "Usage:" ;;;
  console_error "  ADMIN_USER='Camoflage' ADMIN_PASS='...' node scripts/bootstrap-admin.js" ;;;
  process_exit 1.

(** [fsp.mkdir(DATA_DIR, ...).catch(() => {})]: whatever happens, the
    script goes on. *)
Definition mkdir : M unit := fun w => (Normal tt, traced Mkdir w).

(** [fsp.readFile(USERS_FILE, "utf8")] *)
Definition readFile : M text :=
  fun w =>
    match users_file w with
    | Missing => (Throw (SystemError ENOENT), traced ReadFile w)
    | Unreadable e => (Throw (SystemError e), traced ReadFile w)
    | Holds t => (Normal t, traced ReadFile w)
    end.

Definition JSON_parse (t : text) : error + json :=
  match t with
  | Garbage _ => inl SyntaxError
  | Json v => inr v
  end.

(** [JSON.stringify(db, null, 2) + "\n"]: a text that parses to
    [serialized db]. *)
Definition JSON_stringify (db : json) : text := Json (Js.serialized db).

(** [fsp.writeFile(tmp, ...)] *)
Definition writeFile (h : host) (t : text) : M unit :=
  fun w =>
    match write_fault h with
    | Some (e, leftover) =>
        (Throw (SystemError e),
         {| users_file := users_file w; tmp_file := leftover;
            trace := trace w ++ [WriteFile]; stdout := stdout w; stderr := stderr w |})
    | None =>
        (Normal tt,
         {| users_file := users_file w; tmp_file := Holds t;
            trace := trace w ++ [WriteFile]; stdout := stdout w; stderr := stderr w |})
    end.

(** [fsp.rename(tmp, USERS_FILE)] *)
Definition rename (h : host) : M unit :=
  fun w =>
    match rename_fault h with
    | Some e => (Throw (SystemError e), traced Rename w)
    | None =>
        (Normal tt,
         {| users_file := tmp_file w; tmp_file := Missing;
            trace := trace w ++ [Rename]; stdout := stdout w; stderr := stderr w |})
    end.

(** ** The script *)

Section Bootstrap.

Import Js.

(** [crypto.scrypt(password, salt, keylen, callback)] of the host's
    crypto library: the error or the key handed to the callback. *)
Variable scrypt : string -> list byte -> nat -> error + list byte.

(** [a || b] for an environment variable [a] and a string [b]. *)
Definition or_else (a : option string) (b : string) : string :=
  match a with
  | Some s => if is_empty s then b else s
  | None => b
  end.

(** Lines 13-15. *)
Definition ADMIN_USER (e : env) : string :=
  trim (or_else (env_ADMIN_USER e) (or_else (env_ADMIN_USERNAME e) "")).
Definition ADMIN_PASS (e : env) : string :=
  or_else (env_ADMIN_PASS e) (or_else (env_ADMIN_PASSWORD e) "").
Definition ADMIN_EMAIL (e : env) : string :=
  trim (or_else (env_ADMIN_EMAIL e) "").

(** [!email] for a validator's result: a returned string is never
    empty. *)
Definition is_null (o : option string) : bool :=
  match o with None => true | Some _ => false end.

(** Lines 59-66. *)
Definition scryptAsync (password : string) (salt : list byte) : M (list byte) :=
  lift (scrypt password salt 64).

(** [{ users: [] }] *)
Definition empty_db : json := JObj [("users", JArr [])].

(** Lines 79-86. *)
Definition load : M json :=
  try_catch
    (raw <- readFile ;;
     parsed <- lift (JSON_parse raw) ;;
     if truthy parsed && isArray (get parsed "users") then ret parsed
     else ret empty_db)
    (fun _ => ret empty_db).

(** [db.users], which [load] makes an array. *)
Definition users_of (db : json) : list json :=
  match get db "users" with
  | Some (JArr l) => l
  | _ => []
  end.

(** The array [db.users] after its elements became [l]; the property
    keeps its place in [db]. *)
Definition with_users (db : json) (l : list json) : json :=
  match db with
  | JObj ps => JObj (assign_prop "users" (JArr l) ps)
  | _ => db
  end.

(** [String(x && x.username)] *)
Definition username_key (x : json) : error + string :=
  String_ (if truthy x then get x "username" else Some x).

(** [users.find((x) => String(x && x.username) === username)]: the first
    element that passes, with its position, which stands for the
    reference [find] returns; [None] is [undefined]. *)
Fixpoint find (username : string) (users : list json)
  : error + option (nat * json) :=
  match users with
  | [] => inr None
  | x :: r =>
      match username_key x with
      | inr s =>
          if String.eqb s username then inr (Some (0, x))
          else match find username r with
               | inr (Some (i, y)) => inr (Some (S i, y))
               | other => other
               end
      | inl err => inl err
      end
  end.

(** [found || null] *)
Definition or_null (found : option (nat * json)) : option (nat * json) :=
  match found with
  | Some (i, x) => if truthy x then Some (i, x) else None
  | None => None
  end.

(** Lines 95-108.  [email] is a non-empty string or [null]; the property
    [email: undefined] of the literal is not written by
    [JSON.stringify] and nothing reads it before. *)
Definition new_record (h : host) (username : string) (email : option string)
    (salt derived : list byte) : json :=
  JObj ([("id", JStr (randomUUID h)); ("username", JStr username)]
        ++ match email with Some e => [("email", JStr e)] | None => [] end
        ++ [("role", JStr "admin");
            ("salt", JStr (toHex salt));
            ("passHash", JStr (toHex derived));
            ("quota", JNum "-1");
            ("unlocked", JArr []);
            ("contentTokens", JArr []);
            ("disabled", JBool false);
            ("accessUntilMs", JNull);
            ("createdAt", JStr (now h))]).

(** Lines 111-121 on the object found. *)
Definition update_props (h : host) (username : string) (email : option string)
    (salt derived : list byte) (ps : props) : props :=
  let ps := assign_prop "username" (JStr username) ps in
  let ps := match email with
            | Some e => assign_prop "email" (JStr e) ps
            | None => ps
            end in
  let ps := assign_prop "role" (JStr "admin") ps in
  let ps := assign_prop "salt" (JStr (toHex salt)) ps in
  let ps := assign_prop "passHash" (JStr (toHex derived)) ps in
  let ps := if negb (is_number (lookup_prop "quota" ps))
            then assign_prop "quota" (JNum "-1") ps else ps in
  let ps := if negb (isArray (lookup_prop "unlocked" ps))
            then assign_prop "unlocked" (JArr []) ps else ps in
  let ps := if negb (isArray (lookup_prop "contentTokens" ps))
            then assign_prop "contentTokens" (JArr []) ps else ps in
  let ps := assign_prop "disabled" (JBool false) ps in
  let ps := assign_prop "accessUntilMs" JNull ps in
  if negb (truthy_opt (lookup_prop "createdAt" ps))
  then assign_prop "createdAt" (JStr (now h)) ps else ps.

(** Lines 111-121 on whatever truthy element [find] returned.  The file
    is in strict mode, so the first assignment to a string, a number or
    [true] throws a TypeError.  Assignments to an array succeed, but
    [JSON.stringify] writes only its elements, and each property is read
    before it is assigned: the array is persisted as it was. *)
Definition update_record (h : host) (username : string) (email : option string)
    (salt derived : list byte) (u : json) : error + json :=
  match u with
  | JObj ps => inr (JObj (update_props h username email salt derived ps))
  | JArr l => inr (JArr l)
  | JNull | JBool _ | JNum _ | JStr _ => inl TypeError
  end.

(** Lines 94-122: the collection after the branch on [u]. *)
Definition upsert (h : host) (username : string) (email : option string)
    (salt derived : list byte) (u : option (nat * json)) (db : json)
  : error + json :=
  match u with
  | None =>
      inr (with_users db
             (users_of db ++ [new_record h username email salt derived]))
  | Some (i, x) =>
      match update_record h username email salt derived x with
      | inr x' => inr (with_users db (<[i := x']> (users_of db)))
      | inl err => inl err
      end
  end.

(** Lines 68-131. *)
Definition main (e : env) (h : host) : M unit :=
  let username := cleanUsername (ADMIN_USER e) in
  let password := normalizePassword (ADMIN_PASS e) in
  username <- match username with
              | Some u => ret u
              | None => usage "Invalid ADMIN_USER (3-32 chars, letters/digits/._- only)."
              end ;;
  password <- match password with
              | Some p => ret p
              | None => usage "Invalid ADMIN_PASS (min 8 chars)."
              end ;;
  let email := if is_empty (ADMIN_EMAIL e) then None
               else normalizeEmail (ADMIN_EMAIL e) in
  (if negb (is_empty (ADMIN_EMAIL e)) && is_null email
   then usage "Invalid ADMIN_EMAIL." else ret tt) ;;;
  mkdir ;;;
  db <- load ;;
  found <- lift (find username (users_of db)) ;;
  let u := or_null found in
  let salt := randomBytes16 h in
  derived <- scryptAsync password salt ;;
  db <- lift (upsert h username email salt derived u db) ;;
  writeFile h (JSON_stringify db) ;;;
  rename h ;;;
  console_log ("Admin user ready: " ++ username) ;;;
  console_log ("Users file: " ++ USERS_FILE e) ;;;
  console_log "Restart server.js to pick up changes if it is already running.".

Definition error_name (err : error) : string :=
  match err with
  | SystemError ENOENT => "ENOENT"
  | SystemError EACCES => "EACCES"
  | SystemError EISDIR => "EISDIR"
  | SystemError ENOSPC => "ENOSPC"
  | SystemError EIO => "EIO"
  | SyntaxError => "SyntaxError"
  | TypeError => "TypeError"
  | ScryptError => "Error"
  end.

(** The whole file: the checks of lines 24-25, then
    [main().catch((err) => { console.error(err); process.exit(1); })].
    The result is the exit status of the process and the world it
    leaves. *)
Definition script (e : env) (h : host) (w : world) : nat * world :=
  let body :=
    (if is_empty (ADMIN_USER e) then usage "Missing ADMIN_USER." else ret tt) ;;;
    (if is_empty (ADMIN_PASS e) then usage "Missing ADMIN_PASS." else ret tt) ;;;
    try_catch (main e h)
      (fun err => console_error (error_name err) ;;; process_exit 1) in
  match body w with
  | (Normal _, w') => (0, w')
  | (Throw _, w') => (1, w')
  | (Exit c, w') => (c, w')
  end.

End Bootstrap.

(** ** Vocabulary of the specification

    The notions the properties below are stated with. *)

Section Vocabulary.
Import Js.

Local Abbreviation chars := list_ascii_of_string.

(** The specification's character set [A-Za-z0-9_.-], by code point. *)
Definition username_char (c : ascii) : Prop :=
  97 <= code c <= 122 \/ 65 <= code c <= 90 \/ 48 <= code c <= 57 \/
  c = "_"%char \/ c = "."%char \/ c = "-"%char.

(** The specification's acceptance condition on a trimmed username. *)
Definition username_ok (u : string) : Prop :=
  3 <= String.length u <= 32 /\
  forall c, In c (list_ascii_of_string u) -> username_char c.

(** The specification's shape of an address: exactly one [@] with
    non-empty text on both sides, and a domain that has a dot, has no two
    dots in a row, and neither starts nor ends with a dot. *)
Definition well_formed_email (e : string) : Prop :=
  exists local domain : string,
    e = local ++ "@" ++ domain /\
    ~ In "@"%char (chars local) /\ ~ In "@"%char (chars domain) /\
    local <> "" /\ domain <> "" /\
    In "."%char (chars domain) /\
    ~ (exists a b, domain = a ++ ".." ++ b) /\
    ~ (exists b, domain = "." ++ b) /\
    ~ (exists a, domain = a ++ ".").

(** The collection [load] hands to the rest of [main]. *)
Definition load_db (f : file) : json :=
  match f with
  | Holds (Json v) =>
      if truthy v && isArray (get v "users") then v else empty_db
  | _ => empty_db
  end.

(** [email] of line 73. *)
Definition email_of (e : env) : option string :=
  if is_empty (ADMIN_EMAIL e) then None else normalizeEmail (ADMIN_EMAIL e).

(** The inputs pass validation: user name and password are accepted and
    the address, when one is given, is accepted too. *)
Definition valid_config (e : env) (username password : string) : Prop :=
  cleanUsername (ADMIN_USER e) = Some username /\
  normalizePassword (ADMIN_PASS e) = Some password /\
  (ADMIN_EMAIL e = "" \/ normalizeEmail (ADMIN_EMAIL e) <> None).

(** Neither [writeFile] nor [rename] fails. *)
Definition no_fault (h : host) : Prop :=
  write_fault h = None /\ rename_fault h = None.

(** The world a successful run leaves. *)
Definition committed (e : env) (username : string) (db : json) (w : world)
  : world :=
  {| users_file := Holds (Json db);
     tmp_file := Missing;
     trace := (((trace w ++ [Mkdir]) ++ [ReadFile]) ++ [WriteFile]) ++ [Rename];
     stdout := ((stdout w ++ ["Admin user ready: " ++ username])
                  ++ ["Users file: " ++ USERS_FILE e])
                 ++ ["Restart server.js to pick up changes if it is already running."];
     stderr := stderr w |}.

(** [x] passes the test of [find] for [n]. *)
Definition named (n : string) (x : json) : bool :=
  match username_key x with
  | inr s => String.eqb s n
  | inl _ => false
  end.

Definition count_named (n : string) (us : list json) : nat :=
  length (List.filter (named n) us).

Definition is_object (x : json) : bool :=
  match x with JObj _ => true | _ => false end.

(** The three fields every run forces. *)
Definition admin_fields (r : json) : Prop :=
  get r "role" = Some (JStr "admin") /\
  get r "disabled" = Some (JBool false) /\
  get r "accessUntilMs" = Some JNull.

(** The properties the update branch assigns to. *)
Definition written_fields : list string :=
  ["username"; "email"; "role"; "salt"; "passHash"; "quota"; "unlocked";
   "contentTokens"; "disabled"; "accessUntilMs"; "createdAt"].

Definition hex_char (c : ascii) : bool :=
  ((48 <=? code c) && (code c <=? 57)) || ((97 <=? code c) && (code c <=? 102)).

(** A string of [n] characters, each one of [0-9a-f]. *)
Definition is_hex (n : nat) (s : string) : Prop :=
  String.length s = n /\
  forall c, In c (list_ascii_of_string s) -> hex_char c = true.

(** The byte two hexadecimal digits stand for. *)
Definition unhex_digit (c : ascii) : N :=
  let n := N.of_nat (code c) in
  if (n <? 58)%N then (n - 48)%N else (n - 87)%N.

Definition unhex_byte (s : string) : option byte :=
  match s with
  | String a (String b EmptyString) =>
      Byte.of_N (unhex_digit a * 16 + unhex_digit b)
  | _ => None
  end.

(** The store before any run: no file yet, or a file with no user. *)
Definition empty_store (f : file) : Prop :=
  f = Missing \/ f = Holds (Json empty_db).

(** The collection shape of the specification: an object with a
    sequence-valued [users] property. *)
Definition collection_shape (v : json) : Prop :=
  exists ps l, v = JObj ps /\ lookup_prop "users" ps = Some (JArr l).

(** File content that is not a collection: text that is not JSON, or JSON
    that does not have the collection shape. *)
Definition corrupt (t : text) : Prop :=
  (exists raw, t = Garbage raw) \/
  (exists v, t = Json v /\ ~ collection_shape v).

(** Reading or parsing the store file throws: there is no file, reading
    it raises an I/O error, or its text is not JSON. *)
Definition load_throws (f : file) : Prop :=
  f = Missing \/ (exists err, f = Unreadable err) \/
  (exists raw, f = Holds (Garbage raw)).

(** The store that holds the new admin record and nothing else. *)
Definition single_admin (h : host) (n : string) (email : option string)
    (derived : list byte) : json :=
  JObj [("users", JArr [new_record h n email (randomBytes16 h) derived])].

(** An input is missing or fails its validator. *)
Definition config_error (e : env) : Prop :=
  ADMIN_USER e = "" \/ ADMIN_PASS e = "" \/
  cleanUsername (ADMIN_USER e) = None \/
  normalizePassword (ADMIN_PASS e) = None \/
  (ADMIN_EMAIL e <> "" /\ normalizeEmail (ADMIN_EMAIL e) = None).

(** The files and the system calls made are those of [w]. *)
Definition store_untouched (w w' : world) : Prop :=
  users_file w' = users_file w /\ tmp_file w' = tmp_file w /\
  trace w' = trace w.

(** What the specification says of the record a run creates for the
    user name [n]: its name, its address when one was given, the admin
    role, the account neither disabled nor limited in time, the
    unlimited quota, and the salt and the derived key in hexadecimal. *)
Definition created_admin (n : string) (email : option string)
    (salt derived : list byte) (r : json) : Prop :=
  get r "username" = Some (JStr n) /\
  get r "email" = option_map JStr email /\
  get r "role" = Some (JStr "admin") /\
  get r "disabled" = Some (JBool false) /\
  get r "accessUntilMs" = Some JNull /\
  get r "quota" = Some (JNum "-1") /\
  get r "salt" = Some (JStr (toHex salt)) /\
  get r "passHash" = Some (JStr (toHex derived)).

(** No number in [v], at any depth, is [Infinity] or [-Infinity]: every
    value [JSON.stringify] wrote is such, and so is every value of a
    file whose number literals are within the range of a double. *)
Fixpoint all_finite (v : json) : bool :=
  match v with
  | JNum r => is_finite r
  | JArr l => forallb all_finite l
  | JObj ps => forallb (fun kv => all_finite (snd kv)) ps
  | JNull | JBool _ | JStr _ => true
  end.

(** The value the store file holds, [null] standing for a file that
    holds none. *)
Definition stored (w : world) : json :=
  match users_file w with
  | Holds (Json db) => db
  | _ => JNull
  end.

End Vocabulary.

(** ** Sample inputs

    Concrete environments, hosts and stores on which the model is run. *)

(** A stand-in for the host's [scrypt], used only to run the model on
    concrete inputs: the key is [keylen] copies of the first salt byte. *)
Definition sample_scrypt (password : string) (salt : list byte) (keylen : nat)
  : error + list byte :=
  inr (repeat (hd x00 salt) keylen).

Definition sample_env : env :=
  {| env_ADMIN_USER := Some "root-ops"; env_ADMIN_USERNAME := None;
     env_ADMIN_PASS := Some "correcthorse1"; env_ADMIN_PASSWORD := None;
     env_ADMIN_EMAIL := None; USERS_FILE := "/srv/data/users.json" |}.


Definition blank_email_env : env :=
  {| env_ADMIN_USER := Some "root-ops"; env_ADMIN_USERNAME := None;
     env_ADMIN_PASS := Some "correcthorse1"; env_ADMIN_PASSWORD := None;
     env_ADMIN_EMAIL := Some "   "; USERS_FILE := "/srv/data/users.json" |}.

Definition undefined_env : env :=
  {| env_ADMIN_USER := Some "undefined"; env_ADMIN_USERNAME := None;
     env_ADMIN_PASS := Some "correcthorse1"; env_ADMIN_PASSWORD := None;
     env_ADMIN_EMAIL := None; USERS_FILE := "/srv/data/users.json" |}.

Definition host1 : host :=
  {| now := "2024-05-01T10:00:00.000Z"; randomBytes16 := repeat x07 16;
     randomUUID := "3f0c9a52-7b1e-4d0a-9c55-0a1b2c3d4e5f";
     write_fault := None; rename_fault := None |}.

Definition host2 : host :=
  {| now := "2024-06-01T12:30:00.000Z"; randomBytes16 := repeat xc4 16;
     randomUUID := "9d2e6b10-55aa-4c3b-8f01-77e6d5c4b3a2";
     write_fault := None; rename_fault := None |}.

Definition world_with (f : file) : world :=
  {| users_file := f; tmp_file := Missing; trace := []; stdout := [];
     stderr := [] |}.

(** The user collection in the store file. *)
Definition persisted (w : world) : list json :=
  match users_file w with
  | Holds (Json db) => users_of db
  | _ => []
  end.

Definition old_ops_props : Js.props :=
  [("id", JStr "u-7"); ("username", JStr "root-ops");
   ("nickname", JStr "ops"); ("role", JStr "user");
   ("disabled", JBool true); ("accessUntilMs", JNum "1700000000000");
   ("createdAt", JStr "2020-01-01T00:00:00.000Z")].

Definition old_ops : json := JObj old_ops_props.

Definition alice : json :=
  JObj [("id", JStr "u-1"); ("username", JStr "alice"); ("role", JStr "user")].

(** A store with other top-level properties and an existing record for the
    user name. *)
Definition store_with_ops : json :=
  JObj [("version", JNum "3"); ("users", JArr [alice; old_ops]);
        ("note", JStr "kept")].


(** A store whose record for the user name has [createdAt: 0]. *)
Definition store_with_epoch : json :=
  JObj [("users",
         JArr [JObj [("username", JStr "root-ops"); ("createdAt", JNum "0")]])].

(** What [JSON.parse] reads from a file whose text has [1e999] for the
    top-level [version] and for the [bonus] of the record with the user
    name: the literal is beyond the range of a double and reads as
    [Infinity]. *)
Definition overflow_ops_props : Js.props :=
  [("id", JStr "u-7"); ("username", JStr "root-ops");
   ("bonus", JNum "Infinity")].

Definition store_with_overflow : json :=
  JObj [("version", JNum "Infinity");
        ("users", JArr [JObj overflow_ops_props])].



(** A store whose only entry is an empty array. *)
Definition store_with_array : json := JObj [("users", JArr [JArr []])].

(** What [JSON.parse] reads from a file whose record for the user name
    has [1e999] for its [createdAt]. *)
Definition store_with_overflow_date : json :=
  JObj [("users",
         JArr [JObj [("username", JStr "root-ops");
                     ("createdAt", JNum "Infinity")]])].

(** ** Vocabulary of the further properties *)

Section FurtherVocabulary.
Import Js.

Local Abbreviation chars := list_ascii_of_string.

(** Everything [normalizeEmail] asks of the trimmed, lowercased input. *)
Definition email_accepted_form (e : string) : Prop :=
  String.length e <= 254 /\
  exists local domain : string,
    e = local ++ "@" ++ domain /\
    1 <= String.length local <= 64 /\
    3 <= String.length domain /\
    (forall c, In c (chars local) -> class_has local_class c = true) /\
    (forall c, In c (chars domain) -> class_has domain_class c = true) /\
    In "."%char (chars domain) /\
    ~ (exists b, domain = "." ++ b) /\
    ~ (exists a, domain = a ++ ".") /\
    ~ (exists a b, domain = a ++ ".." ++ b).

(** The three lines [usage(msg)] prints. *)
Definition usage_lines (msg : string) : list string :=
  [msg; "Usage:";
   "  ADMIN_USER='Camoflage' ADMIN_PASS='...' node scripts/bootstrap-admin.js"].

(** The world after [usage(msg)] ended the process: only the error stream
    has grown. *)
Definition refused (msg : string) (w : world) : world :=
  {| users_file := users_file w; tmp_file := tmp_file w; trace := trace w;
     stdout := stdout w; stderr := stderr w ++ usage_lines msg |}.

(** The world after [main] was rejected with [err]: the system calls [tr]
    were made, the temporary path holds [tmp], the store file is the one of
    [w], and the error was printed. *)
Definition aborted (tr : list syscall) (tmp : file) (err : error) (w : world)
  : world :=
  {| users_file := users_file w; tmp_file := tmp; trace := trace w ++ tr;
     stdout := stdout w; stderr := stderr w ++ [error_name err] |}.

(** The system calls a run can have made when it ends. *)
Definition run_traces : list (list syscall) :=
  [[]; [Mkdir; ReadFile]; [Mkdir; ReadFile; WriteFile];
   [Mkdir; ReadFile; WriteFile; Rename]].

(** A record whose [username] is a string. *)
Definition named_record (x : json) : Prop :=
  exists ps s, x = JObj ps /\ lookup_prop "username" ps = Some (JStr s).

(** The three lines a successful run prints. *)
Definition success_lines (e : env) (n : string) : list string :=
  ["Admin user ready: " ++ n; "Users file: " ++ USERS_FILE e;
   "Restart server.js to pick up changes if it is already running."].

(** The host [h] when neither writing call fails. *)
Definition without_faults (h : host) : host :=
  {| now := now h; randomBytes16 := randomBytes16 h;
     randomUUID := randomUUID h; write_fault := None; rename_fault := None |}.

End FurtherVocabulary.

(** ** Further sample inputs *)

Definition blank_user_env : env :=
  {| env_ADMIN_USER := Some "   "; env_ADMIN_USERNAME := Some "root-ops";
     env_ADMIN_PASS := Some "correcthorse1"; env_ADMIN_PASSWORD := None;
     env_ADMIN_EMAIL := None; USERS_FILE := "/srv/data/users.json" |}.

Definition email_env : env :=
  {| env_ADMIN_USER := None; env_ADMIN_USERNAME := Some "root-ops";
     env_ADMIN_PASS := None; env_ADMIN_PASSWORD := Some "correcthorse1";
     env_ADMIN_EMAIL := Some " Ops@Example.COM ";
     USERS_FILE := "/srv/data/users.json" |}.

(** A host on which [writeFile] fails for lack of space and leaves a
    truncated temporary file. *)
Definition host_disk_full : host :=
  {| now := "2024-05-01T10:00:00.000Z"; randomBytes16 := repeat x07 16;
     randomUUID := "3f0c9a52-7b1e-4d0a-9c55-0a1b2c3d4e5f";
     write_fault := Some (ENOSPC, Holds (Garbage "{"));
     rename_fault := None |}.

(** A host on which [rename] is refused. *)
Definition host_rename_denied : host :=
  {| now := "2024-05-01T10:00:00.000Z"; randomBytes16 := repeat x07 16;
     randomUUID := "3f0c9a52-7b1e-4d0a-9c55-0a1b2c3d4e5f";
     write_fault := None; rename_fault := Some EACCES |}.

(** A [scrypt] that reports an error. *)
Definition failing_scrypt (password : string) (salt : list byte) (keylen : nat)
  : error + list byte :=
  inl ScryptError.

(** A record with fields of the wrong kind and one of the right kind. *)
Definition odd_ops_props : Js.props :=
  [("username", JStr "root-ops"); ("email", JStr "old@example.com");
   ("quota", JStr "many"); ("unlocked", JArr [JStr "a"]);
   ("contentTokens", JNull)].

Definition store_with_odd_ops : json :=
  JObj [("users", JArr [alice; JObj odd_ops_props])].

(** * Properties *)

(** ** Concrete checks of the primitives *)

Example cleanUsername_root_ops : cleanUsername "  root-ops " = Some "root-ops".
Proof. reflexivity. Qed.

Example normalizeEmail_ok : normalizeEmail " Ops@Example.COM " = Some "ops@example.com".
Proof. reflexivity. Qed.

Example normalizeEmail_bad : normalizeEmail "not-an-email" = None.
Proof. reflexivity. Qed.

Example toHex_sample : toHex [x00; x1f; xa5; xff]%byte = "001fa5ff".
Proof. reflexivity. Qed.

Example to_string_nested :
  Js.to_string (JArr [JArr [JStr "a"; JNull]; JNum "12"]) = inr "a,,12".
Proof. reflexivity. Qed.

(** ** Strings *)

Section StringFacts.

Lemma all_chars_spec (p : ascii -> bool) (s : string) :
  all_chars p s = true <->
  forall c, In c (list_ascii_of_string s) -> p c = true.
Proof.
  induction s as [|d r IH]; simpl.
  - split; [intros _ c [] | reflexivity].
  - rewrite andb_true_iff, IH. split.
    + intros [Hd Hr] c [<-|Hc]; auto.
    + intros H. split; [apply H; now left | intros c Hc; apply H; now right].
Qed.

Lemma some_char_spec (p : ascii -> bool) (s : string) :
  some_char p s = true <->
  exists c, In c (list_ascii_of_string s) /\ p c = true.
Proof.
  induction s as [|d r IH]; simpl.
  - split; [discriminate | intros (c & [] & _)].
  - rewrite orb_true_iff, IH. split.
    + intros [Hd | (c & Hc & Hp)]; [exists d | exists c]; auto.
    + intros (c & [<-|Hc] & Hp); [now left | right; eauto].
Qed.

Lemma is_empty_true (s : string) : is_empty s = true <-> s = "".
Proof. destruct s; simpl; split; congruence. Qed.

Lemma is_empty_false (s : string) : is_empty s = false <-> s <> "".
Proof. destruct s; simpl; split; congruence. Qed.

Lemma len_nonneg (s : string) : (0 <= len s)%Z.
Proof. unfold len. lia. Qed.

Lemma length_app (a b : string) :
  String.length (a ++ b) = String.length a + String.length b.
Proof. induction a; simpl; congruence. Qed.

Lemma in_app_string (c : ascii) (a b : string) :
  In c (list_ascii_of_string (a ++ b)) <->
  In c (list_ascii_of_string a) \/ In c (list_ascii_of_string b).
Proof.
  induction a as [|d a IH]; simpl.
  - tauto.
  - rewrite IH. tauto.
Qed.

Lemma app_assoc_s (a b c : string) : (a ++ b) ++ c = a ++ b ++ c.
Proof. induction a; simpl; congruence. Qed.

Lemma app_empty_r (s : string) : s ++ "" = s.
Proof. induction s; simpl; congruence. Qed.

(** A string that ends with the character [c], cut in two. *)
Lemma app_last (s r a : string) (c : ascii) :
  s ++ r = a ++ String c "" ->
  (r = "" /\ s = a ++ String c "") \/ (exists r', r = r' ++ String c "").
Proof.
  revert a; induction s as [|x s IH]; intros a; simpl.
  - intros ->. right. now exists a.
  - destruct a as [|y a]; simpl; intros [= -> H].
    + destruct s; [|discriminate]. simpl in H. subst r. now left.
    + destruct (IH a H) as [[-> ->] | (r' & ->)]; [now left | right; eauto].
Qed.

Lemma take_drop (n : nat) (s : string) : take n s ++ drop n s = s.
Proof.
  revert s; induction n as [|n IH]; intros [|c r]; simpl; try reflexivity.
  now rewrite IH.
Qed.

Lemma length_take (n : nat) (s : string) :
  n <= String.length s -> String.length (take n s) = n.
Proof.
  revert s; induction n as [|n IH]; intros [|c r]; simpl; intros H;
    try reflexivity; try lia.
  rewrite IH; lia.
Qed.

Lemma length_drop (n : nat) (s : string) :
  String.length (drop n s) = String.length s - n.
Proof.
  revert s; induction n as [|n IH]; intros [|c r]; simpl; auto.
Qed.

(** [startsWith], [includes] and [endsWith] against concatenation. *)
Lemma startsWith_spec (s p : string) :
  startsWith s p = true <-> exists b, s = p ++ b.
Proof.
  revert s; induction p as [|a p IH]; intros s; simpl.
  - split; [intros _; now exists s | intros _; now destruct s].
  - destruct s as [|b s].
    + split; [discriminate | intros (t & Ht); discriminate].
    + simpl. rewrite andb_true_iff, Ascii.eqb_eq, IH. split.
      * intros [-> (t & ->)]. now exists t.
      * intros (t & Ht). injection Ht as -> ->. split; [reflexivity | now exists t].
Qed.

Lemma includes_spec (s p : string) :
  includes s p = true <-> exists a b, s = a ++ p ++ b.
Proof.
  induction s as [|c s IH].
  - cbn [includes]. rewrite orb_false_r, startsWith_spec. split.
    + intros (b & Hb). now exists "", b.
    + intros (a & b & H). destruct a; simpl in H; [now exists b | discriminate].
  - cbn [includes]. rewrite orb_true_iff, startsWith_spec, IH. split.
    + intros [(b & Hb) | (a & b & ->)].
      * now exists "", b.
      * now exists (String c a), b.
    + intros (a & b & H). destruct a as [|d a]; simpl in H.
      * left. now exists b.
      * right. injection H as -> ->. now exists a, b.
Qed.

Lemma drop_app_length (a p : string) :
  drop (String.length (a ++ p) - String.length p) (a ++ p) = p.
Proof.
  rewrite length_app, Nat.add_sub.
  induction a; simpl; [destruct p|]; auto.
Qed.

Lemma endsWith_spec (s p : string) :
  endsWith s p = true <-> exists a, s = a ++ p.
Proof.
  unfold endsWith. rewrite andb_true_iff, Nat.leb_le, String.eqb_eq. split.
  - intros [Hle Hd].
    exists (take (String.length s - String.length p) s).
    pose proof (take_drop (String.length s - String.length p) s) as E.
    rewrite Hd in E. now symmetry.
  - intros (a & ->). split; [rewrite length_app; lia | apply drop_app_length].
Qed.

(** [trim] leaves no white space at either end and removes only white
    space. *)
Lemma trimStart_spec (s : string) :
  exists l, s = l ++ trimStart s /\ all_chars is_space l = true /\
            (forall c r, trimStart s = String c r -> is_space c = false).
Proof.
  induction s as [|c s (l & Hl & Hs & Hh)]; simpl.
  - exists "". repeat split; auto. discriminate.
  - destruct (is_space c) eqn:Hc.
    + exists (String c l). simpl. rewrite Hc, Hs. repeat split; auto. congruence.
    + exists "". repeat split; auto. intros d r [= <- _]. exact Hc.
Qed.

Lemma trimEnd_spec (s : string) :
  exists r, s = trimEnd s ++ r /\ all_chars is_space r = true /\
            (forall a c, trimEnd s = a ++ String c "" -> is_space c = false).
Proof.
  induction s as [|c s (r & Hr & Hs & Hh)]; simpl.
  - exists "". repeat split; auto. intros [|] ?; discriminate.
  - destruct (trimEnd s) as [|d t] eqn:Ht.
    + destruct (is_space c) eqn:Hc.
      * exists (String c r). simpl in *. rewrite Hc, Hs. subst s. repeat split; auto.
      * exists r. simpl in *. subst s. repeat split; auto.
        intros [|a0 a] c0; simpl; intros [= ]; subst; auto.
        destruct a; discriminate.
    + exists r. simpl. rewrite Hr at 1. simpl. repeat split; auto.
      intros [|a0 a] c0; simpl; intros [= ]; subst.
      eapply Hh; eassumption.
Qed.

Lemma trimStart_trimEnd_head (s : string) c r :
  (forall d t, s = String d t -> is_space d = false) ->
  trimEnd s = String c r -> is_space c = false.
Proof.
  destruct s as [|d t]; simpl; [discriminate|].
  intros H. specialize (H d t eq_refl).
  destruct (trimEnd t); [rewrite H|]; intros [= <- _]; exact H.
Qed.

Lemma trim_spec (s : string) :
  exists l r, s = l ++ trim s ++ r /\
    all_chars is_space l = true /\ all_chars is_space r = true /\
    (forall c t, trim s = String c t -> is_space c = false) /\
    (forall a c, trim s = a ++ String c "" -> is_space c = false).
Proof.
  unfold trim.
  destruct (trimStart_spec s) as (l & Hl & Hls & Hh).
  destruct (trimEnd_spec (trimStart s)) as (r & Hr & Hrs & Ht).
  exists l, r. repeat split; auto.
  - now rewrite <- Hr.
  - intros c t. now apply trimStart_trimEnd_head.
Qed.

End StringFacts.

(** ** Username validation (claim C8) *)

Section Username.

Lemma username_class_spec (c : ascii) :
  class_has username_class c = true <-> username_char c.
Proof.
  unfold class_has, username_class, username_char; cbn [existsb item_has].
  change (code "a") with 97; change (code "z") with 122.
  change (code "A") with 65; change (code "Z") with 90.
  change (code "0") with 48; change (code "9") with 57.
  rewrite !orb_true_iff, !andb_true_iff, !Nat.leb_le, !Ascii.eqb_eq.
  intuition congruence.
Qed.

Lemma cleanUsername_Some (raw u : string) :
  cleanUsername raw = Some u <-> u = trim raw /\ username_ok u.
Proof.
  unfold cleanUsername, username_ok, test_plus, len.
  destruct (Z.ltb_spec (Z.of_nat (String.length (trim raw))) 3) as [H3|H3];
    cbn [orb].
  { split; [discriminate | intros [-> [? _]]; lia]. }
  destruct (Z.gtb_spec (Z.of_nat (String.length (trim raw))) 32) as [H32|H32].
  { split; [discriminate | intros [-> [? _]]; lia]. }
  assert (Hne : is_empty (trim raw) = false).
  { destruct (trim raw); [simpl in H3; lia | reflexivity]. }
  rewrite Hne; cbn [negb andb].
  destruct (all_chars (class_has username_class) (trim raw)) eqn:Hall; cbn [negb].
  - split.
    + intros [= <-]. repeat split; try lia.
      intros c Hc. apply username_class_spec.
      now apply (proj1 (all_chars_spec _ _) Hall).
    + now intros [-> _].
  - split; [discriminate|]. intros [-> [_ Hc]].
    assert (all_chars (class_has username_class) (trim raw) = true); [|congruence].
    apply all_chars_spec. intros c Hin. now apply username_class_spec, Hc.
Qed.

(** C8.  [trim raw] is [raw] without the white space at its two ends.
    [cleanUsername] accepts an input exactly when, so trimmed, its length
    is within 3..32 and every character is in [A-Za-z0-9_.-]; it then
    returns the trimmed input.  Every other input is rejected: one whose
    trimmed length is below 3 or above 32, or that contains a character
    outside the set. *)
Theorem cleanUsername_accepts_iff (raw : string) :
  (exists l r, raw = l ++ trim raw ++ r /\
     all_chars is_space l = true /\ all_chars is_space r = true /\
     (forall c t, trim raw = String c t -> is_space c = false) /\
     (forall a c, trim raw = a ++ String c "" -> is_space c = false)) /\
  (cleanUsername raw = Some (trim raw) <-> username_ok (trim raw)) /\
  (username_ok (trim raw) -> cleanUsername raw = Some (trim raw)) /\
  (~ username_ok (trim raw) -> cleanUsername raw = None) /\
  (String.length (trim raw) < 3 -> cleanUsername raw = None) /\
  (32 < String.length (trim raw) -> cleanUsername raw = None) /\
  ((exists c, In c (list_ascii_of_string (trim raw)) /\ ~ username_char c) ->
   cleanUsername raw = None).
Proof.
  assert (Hrej : ~ username_ok (trim raw) -> cleanUsername raw = None).
  { intros Hno. destruct (cleanUsername raw) as [u|] eqn:E; [|reflexivity].
    apply cleanUsername_Some in E as [-> Hok]. contradiction. }
  split; [apply trim_spec|].
  split; [rewrite cleanUsername_Some; tauto|].
  split; [|split; [exact Hrej | repeat split]].
  - intros Hok. now apply cleanUsername_Some.
  - intros Hlt. apply Hrej. intros [? _]. lia.
  - intros Hgt. apply Hrej. intros [? _]. lia.
  - intros (c & Hin & Hc). apply Hrej. intros [_ Hall]. auto.
Qed.

End Username.

(** ** Email validation (claim C9) *)

Section Email.

Local Abbreviation chars := list_ascii_of_string.

Lemma indexOf_spec (c : ascii) (s : string) :
  (indexOf c s = (-1)%Z /\ ~ In c (chars s)) \/
  (exists n, indexOf c s = Z.of_nat n /\ n < String.length s /\
             s = take n s ++ String c (drop (S n) s) /\
             ~ In c (chars (take n s))).
Proof.
  induction s as [|d r IH]; cbn [indexOf].
  - left. split; [reflexivity | intros []].
  - destruct (Ascii.eqb_spec d c) as [->|Hdc].
    + right. exists 0. simpl. repeat split; auto; lia.
    + destruct IH as [[-> Hno] | (n & -> & Hlt & Hs & Hno)].
      * left. split; [reflexivity|]. simpl. tauto.
      * right. exists (S n). replace (Z.of_nat (S n)) with (Z.of_nat n + 1)%Z by lia.
        split; [destruct n; reflexivity|]. repeat split.
        -- simpl String.length. lia.
        -- change (String d r = String d (take n r ++ String c (drop (S n) r))).
           now rewrite <- Hs.
        -- change (~ (d = c \/ In c (chars (take n r)))). tauto.
Qed.

Lemma includes_dot (s : string) :
  includes s "." = true -> In "."%char (chars s).
Proof.
  intros H. apply includes_spec in H as (a & b & ->).
  apply in_app_string. right. now left.
Qed.

Lemma test_plus_chars (k : class) (s : string) (c : ascii) :
  test_plus k s = true -> In c (chars s) -> class_has k c = true.
Proof.
  unfold test_plus. rewrite andb_true_iff. intros [_ H].
  now apply all_chars_spec.
Qed.

Lemma normalizeEmail_Some (raw r : string) :
  normalizeEmail raw = Some r ->
  r = toLowerCase (trim raw) /\ well_formed_email r.
Proof.
  unfold normalizeEmail.
  set (e := toLowerCase (trim raw)).
  destruct (is_empty e) eqn:Hne; [discriminate|].
  destruct (len e >? 254)%Z; [discriminate|].
  destruct (test_space e); [discriminate|].
  destruct (indexOf_spec "@" e) as [[-> _] | (n & -> & Hlt & Hsplit & Hno)];
    [discriminate|].
  destruct (Z.leb_spec (Z.of_nat n) 0) as [|Hpos]; [discriminate|].
  destruct (Z.eqb_spec (Z.of_nat n) (len e - 1)) as [|Hlast]; [discriminate|].
  cbn [orb]. unfold slice, slice_from.
  replace (Z.to_nat (Z.of_nat n - 0)) with n by lia.
  replace (Z.to_nat (Z.of_nat n + 1)) with (S n) by lia.
  change (drop (Z.to_nat 0) e) with e.
  set (local := take n e) in *. set (domain := drop (S n) e) in *.
  destruct (len local >? 64)%Z; [discriminate|].
  destruct (Z.ltb_spec (len domain) 3) as [|Hd3]; [discriminate|].
  destruct (includes domain ".") eqn:Hdot; [|discriminate].
  destruct (test_plus local_class local) eqn:Hlc; [|discriminate].
  destruct (test_plus domain_class domain) eqn:Hdc; [|discriminate].
  destruct (startsWith domain ".") eqn:Hsw; [discriminate|].
  destruct (endsWith domain ".") eqn:Hew; [discriminate|].
  destruct (includes domain "..") eqn:Hdd; [discriminate|].
  cbn [negb orb]. intros [= <-]. split; [reflexivity|].
  exists local, domain. repeat split.
  - exact Hsplit.
  - exact Hno.
  - intros Hin. now pose proof (test_plus_chars _ _ _ Hdc Hin).
  - intros E. assert (String.length local = n) by (apply length_take; lia).
    rewrite E in *. simpl in *. lia.
  - intros E. rewrite E in Hd3. unfold len in Hd3. simpl in Hd3. lia.
  - now apply includes_dot.
  - intros H. apply includes_spec in H. congruence.
  - intros H. apply startsWith_spec in H. congruence.
  - intros H. apply endsWith_spec in H. congruence.
Qed.

Lemma class_lowercase (c : ascii) :
  class_has local_class c = true \/ class_has domain_class c = true \/
  c = "@"%char ->
  lower_char c = c /\ ~ 65 <= code c <= 90.
Proof.
  destruct c as [[] [] [] [] [] [] [] []]; vm_compute;
    (intros [H | [H | H]]; try discriminate H);
    (split; [reflexivity | lia]).
Qed.

Lemma toLowerCase_app (a b : string) :
  toLowerCase (a ++ b) = toLowerCase a ++ toLowerCase b.
Proof. induction a; simpl; congruence. Qed.

Lemma toLowerCase_split (s x y : string) :
  toLowerCase s = x ++ y ->
  exists a b, s = a ++ b /\ toLowerCase a = x /\ toLowerCase b = y.
Proof.
  revert s; induction x as [|c x IH]; intros s; simpl.
  - intros H. now exists "", s.
  - destruct s as [|d s]; [discriminate|]. simpl. intros [= Hc H].
    destruct (IH s H) as (a & b & -> & Ha & Hb).
    exists (String d a), b. simpl. now rewrite Hc, Ha.
Qed.

Lemma lower_char_facts (c : ascii) :
  is_space (lower_char c) = is_space c /\
  (lower_char c = "@"%char -> c = "@"%char) /\
  (lower_char c = "."%char -> c = "."%char).
Proof.
  destruct c as [[] [] [] [] [] [] [] []]; vm_compute;
    (split; [reflexivity | split; intros H; first [reflexivity | discriminate H]]).
Qed.

Lemma in_toLowerCase (c : ascii) (s : string) :
  In c (chars (toLowerCase s)) -> exists d, In d (chars s) /\ lower_char d = c.
Proof.
  induction s as [|x s IH]; simpl; [intros []|].
  intros [<- | H]; [now exists x; auto|].
  destruct (IH H) as (d & Hd & <-). exists d. auto.
Qed.

Lemma space_chars (l : string) (c : ascii) :
  all_chars is_space l = true -> In c (chars l) -> is_space c = true.
Proof. intros H. now apply all_chars_spec. Qed.

(** Two dots in a row in [d ++ r], where [r] has no dot, are in [d]. *)
Lemma includes_dots_app (d r : string) :
  ~ In "."%char (chars r) ->
  includes (d ++ r) ".." = true -> includes d ".." = true.
Proof.
  intros Hr. induction d as [|c d IH].
  - simpl append. intros H. apply includes_spec in H as (a & b & ->).
    exfalso. apply Hr. apply in_app_string. right. now left.
  - simpl append. cbn [includes]. rewrite !orb_true_iff.
    intros [H | H]; [left | right; now apply IH].
    apply startsWith_spec in H as (b & H). simpl in H. injection H as -> H.
    apply startsWith_spec. destruct d as [|c' d]; simpl in H.
    + exfalso. apply Hr. rewrite H. now left.
    + injection H as -> _. now exists d.
Qed.

(** The shape survives in the raw input: trimming removes only white
    space at the ends, and lowercasing maps no other character to [@] or
    to a dot. *)
Lemma well_formed_raw (raw : string) :
  well_formed_email (toLowerCase (trim raw)) -> well_formed_email raw.
Proof.
  intros (local & domain & He & Hl & Hd & Hln & Hdn & Hdot & Hdd & Hsw & Hew).
  destruct (trim_spec raw) as (l & r & Hraw & Hls & Hrs & _ & _).
  destruct (toLowerCase_split _ _ _ He) as (L & T & Ht & HL & HT).
  destruct T as [|c D]; [discriminate HT|].
  simpl in HT. injection HT as Hc HD.
  apply (proj1 (proj2 (lower_char_facts c))) in Hc. subst c.
  assert (Hnosp : forall s x, all_chars is_space s = true -> In x (chars s) ->
                              x <> "@"%char /\ x <> "."%char).
  { intros s x Hs Hx. pose proof (space_chars s x Hs Hx) as Hsp.
    split; intros ->; discriminate Hsp. }
  assert (Hat : forall s, ~ In "@"%char (chars (toLowerCase s)) ->
                          ~ In "@"%char (chars s)).
  { intros s Hno Hin. apply Hno. clear -Hin.
    induction s as [|x s IH]; simpl in *; [contradiction|].
    destruct Hin as [-> | Hin]; [now left | right; auto]. }
  exists (l ++ L), (D ++ r). repeat split.
  - rewrite Hraw at 1. rewrite Ht. now rewrite !app_assoc_s.
  - intros Hin. apply in_app_string in Hin as [Hin | Hin].
    + now destruct (Hnosp l _ Hls Hin).
    + revert Hin. apply Hat. now rewrite HL.
  - intros Hin. apply in_app_string in Hin as [Hin | Hin].
    + revert Hin. apply Hat. now rewrite HD.
    + now destruct (Hnosp r _ Hrs Hin).
  - intros E. destruct l; [|discriminate]. simpl in E. subst L.
    now apply Hln.
  - intros E. destruct D; [|discriminate]. now apply Hdn.
  - rewrite <- HD in Hdot. apply in_toLowerCase in Hdot as (d & Hd' & Hdc).
    apply (proj2 (proj2 (lower_char_facts d))) in Hdc. subst d.
    apply in_app_string. now left.
  - intros (a & b & E). apply Hdd.
    assert (HD2 : includes D ".." = true).
    { apply (includes_dots_app D r).
      - intros Hin. now destruct (Hnosp r _ Hrs Hin).
      - apply includes_spec. eauto. }
    apply includes_spec in HD2 as (a' & b' & ->).
    rewrite <- HD, !toLowerCase_app. now exists (toLowerCase a'), (toLowerCase b').
  - intros (b & E). apply Hsw. destruct D as [|c D]; [now elim Hdn|].
    simpl in E. injection E as -> _. rewrite <- HD. simpl.
    now exists (toLowerCase D).
  - intros (a & E). apply Hew.
    destruct (app_last D r a "." E) as [[_ ->] | (r' & ->)].
    + rewrite <- HD, toLowerCase_app. now exists (toLowerCase a).
    + exfalso. assert (Hin : In "."%char (chars (r' ++ "."))).
      { apply in_app_string. right. now left. }
      now destruct (Hnosp _ _ Hrs Hin).
Qed.

(** C9.  [normalizeEmail] rejects every input that does not have exactly
    one [@] with non-empty text on both sides, or whose domain lacks a
    dot, has two dots in a row, or starts or ends with a dot, whether the
    input is taken as given or trimmed and lowercased.  An accepted
    address is returned trimmed and lowercased: it is
    [toLowerCase (trim raw)], holds no white space and no capital letter,
    and lowercasing it again changes nothing. *)
Theorem normalizeEmail_rejects_malformed (raw : string) :
  (normalizeEmail raw = None \/
   normalizeEmail raw = Some (toLowerCase (trim raw))) /\
  (normalizeEmail raw <> None ->
   well_formed_email (toLowerCase (trim raw)) /\
   toLowerCase (toLowerCase (trim raw)) = toLowerCase (trim raw) /\
   forall c, In c (chars (toLowerCase (trim raw))) ->
             is_space c = false /\ ~ 65 <= code c <= 90) /\
  (~ well_formed_email (toLowerCase (trim raw)) -> normalizeEmail raw = None) /\
  (~ well_formed_email raw -> normalizeEmail raw = None).
Proof.
  destruct (normalizeEmail raw) as [r|] eqn:E.
  2:{ split; [now left|]. split; [congruence | split; reflexivity]. }
  pose proof (normalizeEmail_Some _ _ E) as [-> Hwf].
  split; [now right|].
  split; [|split; intros Hno; elim Hno; [exact Hwf | now apply well_formed_raw]].
  intros _.
  assert (Hc : forall c, In c (chars (toLowerCase (trim raw))) ->
               lower_char c = c /\ is_space c = false /\ ~ 65 <= code c <= 90).
  { intros c Hin.
    assert (Hsp : is_space c = false).
    { revert E. unfold normalizeEmail.
      destruct (is_empty _); [discriminate|].
      destruct (_ >? 254)%Z; [discriminate|].
      destruct (test_space _) eqn:Hts; [discriminate|]. intros _.
      destruct (is_space c) eqn:Hs; [|reflexivity].
      assert (test_space (toLowerCase (trim raw)) = true); [|congruence].
      apply some_char_spec. eauto. }
    revert E. unfold normalizeEmail.
    set (e := toLowerCase (trim raw)) in *.
    destruct (is_empty e); [discriminate|].
    destruct (len e >? 254)%Z; [discriminate|].
    destruct (test_space e); [discriminate|].
    destruct (indexOf_spec "@" e) as [[-> _] | (n & -> & Hlt & Hsplit & Hno)];
      [discriminate|].
    destruct (_ || _); [discriminate|].
    unfold slice, slice_from.
    replace (Z.to_nat (Z.of_nat n - 0)) with n by lia.
    replace (Z.to_nat (Z.of_nat n + 1)) with (S n) by lia.
    change (drop (Z.to_nat 0) e) with e.
    destruct (_ >? 64)%Z; [discriminate|].
    destruct (_ <? 3)%Z; [discriminate|].
    destruct (includes _ "."); [|discriminate].
    destruct (test_plus local_class _) eqn:Hlc; [|discriminate].
    destruct (test_plus domain_class _) eqn:Hdc; [|discriminate].
    intros _. rewrite Hsplit in Hin.
    apply in_app_string in Hin as [Hin | [<- | Hin]].
    - pose proof (test_plus_chars _ _ _ Hlc Hin) as Hk.
      destruct (class_lowercase c) as [? ?]; auto.
    - destruct (class_lowercase "@"%char) as [? ?]; auto.
    - pose proof (test_plus_chars _ _ _ Hdc Hin) as Hk.
      destruct (class_lowercase c) as [? ?]; auto. }
  split; [exact Hwf|]. split.
  - clear E Hwf. induction (toLowerCase (trim raw)) as [|c s IH]; simpl; [reflexivity|].
    rewrite IH by (intros d Hd; apply Hc; now right).
    now rewrite (proj1 (Hc c (or_introl eq_refl))).
  - intros c Hin. now destruct (Hc c Hin) as (_ & ? & ?).
Qed.

End Email.

(** ** Objects as property lists *)

Section Props.
Import Js.

Lemma lookup_assign_eq (k : string) (v : json) (ps : props) :
  lookup_prop k (assign_prop k v ps) = Some v.
Proof.
  induction ps as [|[k' v'] r IH]; simpl.
  - now rewrite String.eqb_refl.
  - destruct (String.eqb k' k) eqn:E; simpl.
    + now rewrite String.eqb_refl.
    + now rewrite E.
Qed.

Lemma lookup_assign_ne (k k' : string) (v : json) (ps : props) :
  k <> k' -> lookup_prop k' (assign_prop k v ps) = lookup_prop k' ps.
Proof.
  intros Hne. induction ps as [|[k0 v0] r IH]; simpl.
  - apply String.eqb_neq in Hne. now rewrite Hne.
  - destruct (String.eqb_spec k0 k) as [->|Hk]; simpl.
    + apply String.eqb_neq in Hne. now rewrite Hne.
    + now rewrite IH.
Qed.

Lemma assign_assign (k : string) (v v' : json) (ps : props) :
  assign_prop k v (assign_prop k v' ps) = assign_prop k v ps.
Proof.
  induction ps as [|[k0 v0] r IH]; cbn.
  - now rewrite String.eqb_refl.
  - destruct (String.eqb k0 k) eqn:E; cbn.
    + now rewrite String.eqb_refl.
    + now rewrite E, IH.
Qed.

End Props.

Create Rewrite HintDb props.
#[local] Hint Rewrite lookup_assign_eq : props.
#[local] Hint Rewrite lookup_assign_ne using congruence : props.

(** ** Values as [JSON.stringify] writes them *)

Section Serialization.
Import Js.

Lemma json_induction (P : json -> Prop) :
  P JNull -> (forall b, P (JBool b)) -> (forall r, P (JNum r)) ->
  (forall s, P (JStr s)) ->
  (forall l, Forall P l -> P (JArr l)) ->
  (forall ps, Forall (fun kv => P (snd kv)) ps -> P (JObj ps)) ->
  forall v, P v.
Proof.
  intros Hn Hb Hr Hs Ha Ho. fix IH 1.
  intros [|b|r|s|l|ps]; [exact Hn | apply Hb | apply Hr | apply Hs | | ].
  - apply Ha. induction l as [|x l IHl]; constructor; [apply IH | exact IHl].
  - apply Ho. induction ps as [|[k x] ps IHps]; constructor;
      [apply IH | exact IHps].
Qed.

Lemma lookup_serialized (k : string) (ps : props) :
  lookup_prop k (serialized_props serialized ps) =
  option_map serialized (lookup_prop k ps).
Proof.
  induction ps as [|[k' v] r IH]; cbn; [reflexivity|].
  now destruct (String.eqb k' k).
Qed.

Lemma get_serialized (v : json) (k : string) :
  get (serialized v) k = option_map serialized (get v k).
Proof.
  destruct v as [| |r| | |ps]; cbn; try reflexivity.
  - now destruct (is_finite r).
  - apply lookup_serialized.
Qed.

Lemma users_of_serialized (db : json) :
  users_of (serialized db) = List.map serialized (users_of db).
Proof.
  unfold users_of. rewrite get_serialized.
  destruct (get db "users") as [[| |r| | |]|]; cbn; try reflexivity.
  now destruct (is_finite r).
Qed.

(** A value with finite numbers only is written as it is. *)
Lemma serialized_finite (v : json) : all_finite v = true -> serialized v = v.
Proof.
  induction v as [| | r | | l IH | ps IH] using json_induction;
    cbn [serialized all_finite]; try reflexivity.
  - now intros ->.
  - intros H. f_equal. induction IH as [|x l Hx _ IHl]; cbn in *; [reflexivity|].
    apply andb_prop in H as [H1 H2]. now rewrite Hx, IHl.
  - intros H. f_equal. induction IH as [|[k x] ps Hx _ IHps]; cbn in *;
      [reflexivity|].
    apply andb_prop in H as [H1 H2]. rewrite (Hx H1). f_equal. now apply IHps.
Qed.

(** What is written has finite numbers only. *)
Lemma all_finite_serialized (v : json) : all_finite (serialized v) = true.
Proof.
  induction v as [| | r | | l IH | ps IH] using json_induction;
    cbn [serialized all_finite]; try reflexivity.
  - destruct (is_finite r) eqn:E; cbn; auto.
  - induction IH as [|x l Hx _ IHl]; cbn in *; [reflexivity|].
    now rewrite Hx, IHl.
  - induction IH as [|[k x] ps Hx _ IHps]; cbn in *; [reflexivity|].
    rewrite Hx. exact IHps.
Qed.

Lemma serialized_idem (v : json) : serialized (serialized v) = serialized v.
Proof. apply serialized_finite, all_finite_serialized. Qed.

Lemma is_object_serialized (x : json) : is_object (serialized x) = is_object x.
Proof. destruct x as [| |r| | |]; cbn; try reflexivity. now destruct (is_finite r). Qed.

Lemma collection_shape_serialized (v : json) :
  collection_shape v -> collection_shape (serialized v).
Proof.
  intros (ps & l & -> & Hl). exists (serialized_props serialized ps), (List.map serialized l).
  split; [reflexivity|]. now rewrite lookup_serialized, Hl.
Qed.

Lemma serialized_new_record h n email salt derived :
  serialized (new_record h n email salt derived) =
  new_record h n email salt derived.
Proof. now destruct email. Qed.

Lemma map_insert {A B} (f : A -> B) (l : list A) (i : nat) (x : A) :
  List.map f (<[i := x]> l) = <[i := f x]> (List.map f l).
Proof.
  revert i; induction l as [|y l IH]; intros [|i]; cbn; try reflexivity.
  f_equal. apply IH.
Qed.

Lemma lookup_map {A B} (f : A -> B) (l : list A) (i : nat) :
  List.map f l !! i = option_map f (l !! i).
Proof.
  revert i; induction l as [|y l IH]; intros [|i]; cbn; try reflexivity.
  apply IH.
Qed.


Lemma map_serialized_finite (l : list json) :
  Forall (fun x => all_finite x = true) l -> List.map serialized l = l.
Proof.
  induction 1 as [|x l Hx _ IH]; cbn; [reflexivity|].
  now rewrite (serialized_finite x Hx), IH.
Qed.

Lemma Forall_finite_map_serialized (l : list json) :
  Forall (fun x => all_finite x = true) (List.map serialized l).
Proof.
  induction l as [|x l IH]; cbn; constructor; auto using all_finite_serialized.
Qed.

End Serialization.

(** ** The run as a whole *)

Section Run.
Import Js.

Variable scrypt : string -> list byte -> nat -> error + list byte.

Lemma load_run (w : world) :
  load w = (Normal (load_db (users_file w)), traced ReadFile w).
Proof.
  unfold load, try_catch, bind, readFile, load_db.
  destruct (users_file w) as [|err|[raw|v]]; cbn; try reflexivity.
  now destruct (truthy v && isArray (get v "users")).
Qed.

Lemma cleanUsername_nonempty (x u : string) :
  cleanUsername x = Some u -> is_empty x = false.
Proof. destruct x; [discriminate | reflexivity]. Qed.

Lemma normalizePassword_nonempty (x p : string) :
  normalizePassword x = Some p -> is_empty x = false.
Proof. destruct x; [discriminate | reflexivity]. Qed.

Lemma valid_config_email (e : env) (username password : string) :
  valid_config e username password ->
  negb (is_empty (ADMIN_EMAIL e)) && is_null (email_of e) = false.
Proof.
  intros (_ & _ & [H|H]); unfold email_of.
  - now rewrite H.
  - destruct (is_empty (ADMIN_EMAIL e)); [reflexivity|].
    now destruct (normalizeEmail (ADMIN_EMAIL e)).
Qed.

(** Every step after validation, in order. *)
Lemma script_success (e : env) (h : host) (w : world)
    (username password : string) (found : option (nat * json))
    (derived : list byte) (db : json) :
  valid_config e username password ->
  find username (users_of (load_db (users_file w))) = inr found ->
  scrypt password (randomBytes16 h) 64 = inr derived ->
  upsert h username (email_of e) (randomBytes16 h) derived (or_null found)
    (load_db (users_file w)) = inr db ->
  no_fault h ->
  script scrypt e h w = (0, committed e username (serialized db) w).
Proof.
  intros Hcfg Hfind Hkey Hup [Hw Hr].
  pose proof (valid_config_email _ _ _ Hcfg) as Hem.
  destruct Hcfg as (Hu & Hp & _).
  unfold script, main, bind, try_catch.
  rewrite (cleanUsername_nonempty _ _ Hu), (normalizePassword_nonempty _ _ Hp).
  cbn [ret]. rewrite Hu, Hp. cbn [ret].
  fold (email_of e). rewrite Hem. cbn [ret mkdir].
  rewrite load_run. cbn [users_file traced lift].
  rewrite Hfind. unfold scryptAsync. rewrite Hkey. cbn [ret lift].
  rewrite Hup. unfold writeFile, rename. rewrite Hw, Hr. reflexivity.
Qed.

(** Conversely, exit status 0 means that every step went through. *)
Lemma script_success_steps (e : env) (h : host) (w : world) :
  fst (script scrypt e h w) = 0 ->
  exists username password found derived db,
    valid_config e username password /\
    find username (users_of (load_db (users_file w))) = inr found /\
    scrypt password (randomBytes16 h) 64 = inr derived /\
    upsert h username (email_of e) (randomBytes16 h) derived (or_null found)
      (load_db (users_file w)) = inr db /\
    no_fault h.
Proof.
  intros H0.
  revert H0. unfold script, main, bind, try_catch, usage, bind.
  destruct (is_empty (ADMIN_USER e)) eqn:Hue; [cbn; discriminate|].
  destruct (is_empty (ADMIN_PASS e)) eqn:Hpe; [cbn; discriminate|].
  cbn [ret].
  destruct (cleanUsername (ADMIN_USER e)) as [u|] eqn:Hu; [|cbn; discriminate].
  destruct (normalizePassword (ADMIN_PASS e)) as [p|] eqn:Hp; [|cbn; discriminate].
  cbn [ret]. fold (email_of e).
  destruct (negb (is_empty (ADMIN_EMAIL e)) && is_null (email_of e)) eqn:Hem;
    [cbn; discriminate|].
  cbn [ret mkdir]. rewrite load_run. cbn [users_file traced lift].
  destruct (find u (users_of (load_db (users_file w)))) as [?|f] eqn:Hf;
    [cbn; discriminate|].
  unfold scryptAsync.
  destruct (scrypt p (randomBytes16 h) 64) as [?|d] eqn:Hk; [cbn; discriminate|].
  cbn [ret lift].
  destruct (upsert h u (email_of e) (randomBytes16 h) d (or_null f)
              (load_db (users_file w))) as [?|db'] eqn:Hup; [cbn; discriminate|].
  unfold writeFile, rename.
  destruct (write_fault h) as [[? ?]|] eqn:Hw; [cbn; discriminate|].
  destruct (rename_fault h) as [?|] eqn:Hr; [cbn; discriminate|].
  intros _.
  assert (Hcfg : valid_config e u p).
  { repeat split; auto. unfold email_of in Hem.
    destruct (is_empty (ADMIN_EMAIL e)) eqn:He.
    - left. now apply is_empty_true.
    - right. now destruct (normalizeEmail (ADMIN_EMAIL e)). }
  assert (Hnf : no_fault h) by now split.
  exists u, p, f, d, db'.
  split; [exact Hcfg|]. split; [exact Hf|]. split; [exact Hk|].
  split; [exact Hup|]. exact Hnf.
Qed.

Lemma script_success_inv (e : env) (h : host) (w : world) :
  fst (script scrypt e h w) = 0 ->
  exists username password found derived db,
    valid_config e username password /\
    find username (users_of (load_db (users_file w))) = inr found /\
    scrypt password (randomBytes16 h) 64 = inr derived /\
    upsert h username (email_of e) (randomBytes16 h) derived (or_null found)
      (load_db (users_file w)) = inr db /\
    no_fault h /\
    script scrypt e h w = (0, committed e username (serialized db) w).
Proof.
  intros H0.
  destruct (script_success_steps e h w H0)
    as (u & p & f & d & db' & Hcfg & Hf & Hk & Hup & Hnf).
  exists u, p, f, d, db'.
  split; [exact Hcfg|]. split; [exact Hf|]. split; [exact Hk|].
  split; [exact Hup|]. split; [exact Hnf|].
  exact (script_success e h w u p f d db' Hcfg Hf Hk Hup Hnf).
Qed.

End Run.

(** ** Finding and counting records *)

Section Collection.
Import Js.

Lemma named_username (n : string) (ps : props) :
  lookup_prop "username" ps = Some (JStr n) -> named n (JObj ps) = true.
Proof.
  intros H. unfold named, username_key. cbn. rewrite H. cbn.
  apply String.eqb_refl.
Qed.

Lemma find_Some (n : string) (us : list json) (i : nat) (x : json) :
  find n us = inr (Some (i, x)) ->
  us !! i = Some x /\ named n x = true /\
  count_named n (List.firstn i us) = 0.
Proof.
  revert i; induction us as [|y r IH]; intros i; cbn [find]; [discriminate|].
  unfold count_named, named in *.
  destruct (username_key y) as [?|s] eqn:Hy; try discriminate.
  destruct (String.eqb s n) eqn:Hs.
  - intros [= <- <-]. rewrite Hy. auto.
  - destruct (find n r) as [?|[[j z]|]]; try discriminate.
    intros [= <- <-]. destruct (IH j eq_refl) as (? & ? & ?).
    cbn. rewrite Hy, Hs. auto.
Qed.

Lemma find_None (n : string) (us : list json) :
  find n us = inr None -> count_named n us = 0.
Proof.
  induction us as [|y r IH]; cbn [find]; [reflexivity|].
  unfold count_named, named in *.
  destruct (username_key y) as [?|s] eqn:Hy; try discriminate.
  destruct (String.eqb s n) eqn:Hs; [discriminate|].
  destruct (find n r) as [?|[[j z]|]]; try discriminate.
  intros _. cbn. rewrite Hy, Hs. auto.
Qed.

Lemma named_key (n : string) (r : json) :
  named n r = true -> exists s, username_key r = inr s /\ String.eqb s n = true.
Proof.
  unfold named. destruct (username_key r) as [?|s]; [discriminate|]. eauto.
Qed.

Lemma find_app_new (n : string) (us : list json) (r : json) :
  find n us = inr None -> named n r = true ->
  find n (us ++ [r]) = inr (Some (length us, r)).
Proof.
  intros Hf Hr. destruct (named_key _ _ Hr) as (s & Hs & Hsn).
  induction us as [|y t IH]; cbn [find app length].
  - now rewrite Hs, Hsn.
  - cbn [find] in Hf. destruct (username_key y) as [?|sy]; [discriminate|].
    destruct (String.eqb sy n); [discriminate|].
    destruct (find n t) as [?|[[j z]|]]; try discriminate.
    now rewrite IH.
Qed.

Lemma find_insert (n : string) (us : list json) (i : nat) (x r : json) :
  find n us = inr (Some (i, x)) -> named n r = true ->
  find n (<[i := r]> us) = inr (Some (i, r)).
Proof.
  intros Hf Hr. destruct (named_key _ _ Hr) as (s & Hs & Hsn).
  revert i Hf. induction us as [|y t IH]; intros i; cbn [find]; [discriminate|].
  destruct (username_key y) as [?|sy] eqn:Hy; [discriminate|].
  destruct (String.eqb sy n) eqn:Hyn.
  - intros [= <- _]. change (<[0 := r]> (y :: t)) with (r :: t).
    cbn [find]. now rewrite Hs, Hsn.
  - destruct (find n t) as [?|[[j z]|]] eqn:Ht; try discriminate.
    intros [= <- <-]. change (<[S j := r]> (y :: t)) with (y :: <[j := r]> t).
    cbn [find]. now rewrite Hy, Hyn, (IH j eq_refl).
Qed.


Lemma count_named_insert (n : string) (us : list json) (i : nat) (x x' : json) :
  us !! i = Some x -> named n x' = named n x ->
  count_named n (<[i := x']> us) = count_named n us.
Proof.
  unfold count_named.
  revert i; induction us as [|y r IH]; intros [|i]; cbn; try discriminate.
  - intros [= ->] E. rewrite E. now destruct (named n x).
  - intros Hi E. specialize (IH i Hi E).
    destruct (named n y); cbn; [f_equal|]; exact IH.
Qed.

Lemma count_named_In (n : string) (us : list json) (x : json) :
  In x us -> named n x = true -> 1 <= count_named n us.
Proof.
  intros Hin Hn. unfold count_named.
  assert (In x (List.filter (named n) us)) by now apply List.filter_In.
  destruct (List.filter (named n) us); [contradiction | simpl; lia].
Qed.


End Collection.

(** ** The two branches of the upsert *)

Section Upsert.
Import Js.

Variable scrypt : string -> list byte -> nat -> error + list byte.

Ltac split_ifs :=
  repeat match goal with
    | |- context [if ?b then _ else _] => destruct b
    | |- context [match ?o with Some _ => _ | None => _ end] => destruct o
    end.

Lemma update_props_forced h n email salt derived ps :
  let ps' := update_props h n email salt derived ps in
  lookup_prop "username" ps' = Some (JStr n) /\
  lookup_prop "role" ps' = Some (JStr "admin") /\
  lookup_prop "salt" ps' = Some (JStr (toHex salt)) /\
  lookup_prop "passHash" ps' = Some (JStr (toHex derived)) /\
  lookup_prop "disabled" ps' = Some (JBool false) /\
  lookup_prop "accessUntilMs" ps' = Some JNull.
Proof.
  unfold update_props; cbv zeta.
  destruct email; split_ifs; autorewrite with props; auto 10.
Qed.

Lemma update_props_frame h n email salt derived ps k :
  ~ In k written_fields ->
  lookup_prop k (update_props h n email salt derived ps) = lookup_prop k ps.
Proof.
  unfold written_fields. cbn [In]. intros H.
  assert ("username" <> k /\ "email" <> k /\ "role" <> k /\ "salt" <> k /\
          "passHash" <> k /\ "quota" <> k /\ "unlocked" <> k /\
          "contentTokens" <> k /\ "disabled" <> k /\ "accessUntilMs" <> k /\
          "createdAt" <> k) as (?&?&?&?&?&?&?&?&?&?&?) by tauto.
  unfold update_props; cbv zeta.
  destruct email; split_ifs; autorewrite with props; auto.
Qed.

Lemma update_props_createdAt h n email salt derived ps :
  lookup_prop "createdAt" (update_props h n email salt derived ps) =
  if truthy_opt (lookup_prop "createdAt" ps)
  then lookup_prop "createdAt" ps else Some (JStr (now h)).
Proof.
  unfold update_props; cbv zeta.
  match goal with
  | |- lookup_prop _ (if negb (truthy_opt (lookup_prop _ ?q)) then _ else _) = _ =>
      assert (E : lookup_prop "createdAt" q = lookup_prop "createdAt" ps)
        by (destruct email; split_ifs; autorewrite with props; auto);
      rewrite E; clear E;
      destruct (truthy_opt (lookup_prop "createdAt" ps)) eqn:Ht; cbn [negb];
      [destruct email; split_ifs; autorewrite with props; auto
      | now rewrite lookup_assign_eq]
  end.
Qed.

Lemma new_record_fields h n email salt derived :
  let r := new_record h n email salt derived in
  get r "id" = Some (JStr (randomUUID h)) /\
  get r "username" = Some (JStr n) /\
  get r "role" = Some (JStr "admin") /\
  get r "salt" = Some (JStr (toHex salt)) /\
  get r "passHash" = Some (JStr (toHex derived)) /\
  get r "quota" = Some (JNum "-1") /\
  get r "unlocked" = Some (JArr []) /\
  get r "contentTokens" = Some (JArr []) /\
  get r "disabled" = Some (JBool false) /\
  get r "accessUntilMs" = Some JNull /\
  get r "createdAt" = Some (JStr (now h)).
Proof. destruct email; cbn; auto 12. Qed.

Lemma load_db_object (f : file) :
  exists ps l, load_db f = JObj ps /\ lookup_prop "users" ps = Some (JArr l).
Proof.
  assert (He : exists ps l, empty_db = JObj ps /\
                            lookup_prop "users" ps = Some (JArr l))
    by (now exists [("users", JArr [])], []).
  destruct f as [|?|[?|v]]; cbn; auto.
  destruct v as [| | | | |ps]; cbn [get isArray truthy andb];
    rewrite ?andb_false_r; auto.
  destruct (lookup_prop "users" ps) as [[]|] eqn:E; cbn; eauto.
Qed.

Lemma users_of_with_users (ps : props) (l : list json) :
  users_of (with_users (JObj ps) l) = l.
Proof. unfold users_of, with_users, get. now rewrite lookup_assign_eq. Qed.

Lemma get_with_users (ps : props) (l : list json) (k : string) :
  k <> "users" -> get (with_users (JObj ps) l) k = get (JObj ps) k.
Proof. intros H. cbn. apply lookup_assign_ne. congruence. Qed.

Lemma load_db_with_users (ps : props) (l : list json) :
  load_db (Holds (Json (with_users (JObj ps) l))) = with_users (JObj ps) l.
Proof. cbn. now rewrite lookup_assign_eq. Qed.

Lemma load_db_loaded (v : json) :
  truthy v && isArray (get v "users") = true -> load_db (Holds (Json v)) = v.
Proof. intros H. cbn. now rewrite H. Qed.

(** What a successful run did: it appended a new record, or it updated
    in place the truthy element [find] returned, and it wrote the
    collection [mem] it then had in memory. *)
Lemma success_cases (e : env) (h : host) (w : world) :
  fst (script scrypt e h w) = 0 ->
  let db := load_db (users_file w) in
  let us := users_of db in
  let salt := randomBytes16 h in
  exists n p derived mem,
    valid_config e n p /\
    scrypt p salt 64 = inr derived /\
    script scrypt e h w = (0, committed e n (serialized mem) w) /\
    (forall k, k <> "users" -> get mem k = get db k) /\
    ((exists found, find n us = inr found /\ or_null found = None /\
        users_of mem = (us ++ [new_record h n (email_of e) salt derived])%list) \/
     (exists i x x', find n us = inr (Some (i, x)) /\ truthy x = true /\
        update_record h n (email_of e) salt derived x = inr x' /\
        users_of mem = <[i := x']> us)).
Proof.
  intros H0 db us salt.
  destruct (script_success_inv scrypt e h w H0)
    as (n & p & found & derived & db' & Hcfg & Hfind & Hkey & Hup & _ & Hrun).
  exists n, p, derived, db'. repeat (split; [assumption|]).
  destruct (load_db_object (users_file w)) as (ps & l & Hdb & Hl).
  fold db in Hdb, Hup, Hfind. fold us in Hfind. unfold upsert in Hup.
  fold us in Hup. fold salt in Hup. rewrite Hdb in Hup |- *.
  destruct (or_null found) as [[i x]|] eqn:Hor.
  - destruct (update_record h n (email_of e) salt derived x) as [?|x'] eqn:Hx;
      try discriminate.
    injection Hup as <-. split; [intros; now apply get_with_users|].
    right. exists i, x, x'.
    destruct found as [[j y]|]; [|discriminate]. cbn in Hor.
    destruct (truthy y) eqn:Hy; [|discriminate]. injection Hor as -> ->.
    repeat split; auto. apply users_of_with_users.
  - injection Hup as <-. split; [intros; now apply get_with_users|].
    left. exists found. repeat split; auto. apply users_of_with_users.
Qed.

End Upsert.

(** ** The record a run creates or updates *)

Section AdminRecord.
Import Js.

Variable scrypt : string -> list byte -> nat -> error + list byte.

Lemma lookup_In {A} (l : list A) (i : nat) (x : A) : l !! i = Some x -> In x l.
Proof. intros H. apply list_elem_of_In. eapply list_elem_of_lookup_2; eauto. Qed.

Lemma Forall_object_lookup (us : list json) (i : nat) (x : json) :
  Forall (fun y => is_object y = true) us -> us !! i = Some x ->
  exists ps, x = JObj ps.
Proof.
  intros HF Hi. rewrite Forall_forall in HF.
  assert (Hx : is_object x = true).
  { apply HF. eapply list_elem_of_lookup_2; eauto. }
  destruct x; try discriminate. eauto.
Qed.

(** The record of the creation branch, as it is written. *)
Lemma new_record_written h n email salt derived :
  let r := serialized (new_record h n email salt derived) in
  get r "username" = Some (JStr n) /\ admin_fields r /\
  get r "salt" = Some (JStr (toHex salt)) /\
  get r "passHash" = Some (JStr (toHex derived)).
Proof.
  cbv zeta. rewrite serialized_new_record.
  pose proof (new_record_fields h n email salt derived)
    as (_ & Hu & Hr & Hs & Hp & _ & _ & _ & Hd & Ha & _).
  unfold admin_fields. auto.
Qed.

(** The record of the update branch, as it is written. *)
Lemma updated_record_written h n email salt derived ps :
  let r := serialized (JObj (update_props h n email salt derived ps)) in
  get r "username" = Some (JStr n) /\ admin_fields r /\
  get r "salt" = Some (JStr (toHex salt)) /\
  get r "passHash" = Some (JStr (toHex derived)).
Proof.
  cbv zeta.
  pose proof (update_props_forced h n email salt derived ps)
    as (Hu & Hr & Hs & Hp & Hd & Ha).
  unfold admin_fields. rewrite !get_serialized. cbn [get].
  rewrite Hu, Hr, Hs, Hp, Hd, Ha. auto.
Qed.

Lemma named_get_username (n : string) (r : json) :
  get r "username" = Some (JStr n) -> named n r = true.
Proof.
  destruct r as [| | | | |ps]; try discriminate. apply named_username.
Qed.

(** A successful run in which the entry [find] returned, if there was
    one, is an object: the record [r] it appended, or put at the
    position [i] of that entry, and the collection [mem] it wrote. *)
Lemma admin_record_cases (e : env) (h : host) (w : world) (n : string) :
  fst (script scrypt e h w) = 0 ->
  cleanUsername (ADMIN_USER e) = Some n ->
  let us := users_of (load_db (users_file w)) in
  let salt := randomBytes16 h in
  (forall j x, find n us = inr (Some (j, x)) -> is_object x = true) ->
  exists p derived mem i r,
    normalizePassword (ADMIN_PASS e) = Some p /\
    scrypt p salt 64 = inr derived /\
    script scrypt e h w = (0, committed e n (serialized mem) w) /\
    users_of mem !! i = Some r /\
    get (serialized r) "username" = Some (JStr n) /\
    admin_fields (serialized r) /\
    get (serialized r) "salt" = Some (JStr (toHex salt)) /\
    get (serialized r) "passHash" = Some (JStr (toHex derived)) /\
    ((find n us = inr None /\ users_of mem = (us ++ [r])%list /\
      i = length us) \/
     (exists x, find n us = inr (Some (i, x)) /\ is_object x = true /\
        users_of mem = <[i := r]> us)).
Proof.
  intros H0 Hn us salt Hobj.
  destruct (success_cases scrypt e h w H0)
    as (n' & p & derived & mem & Hcfg & Hkey & Hrun & _ & Hcase).
  assert (n' = n) as -> by (destruct Hcfg as (Hu & _); congruence).
  fold us in Hcase. fold salt in Hcase, Hkey.
  destruct Hcfg as (_ & Hp & _).
  destruct Hcase as [(found & Hfind & Hor & Hus) | (i & x & x' & Hfind & _ & Hx & Hus)].
  - assert (found = None) as ->.
    { destruct found as [[j y]|]; [|reflexivity].
      specialize (Hobj j y Hfind). destruct y; discriminate. }
    destruct (new_record_written h n (email_of e) salt derived)
      as (Hu & Hadm & Hs & Hh).
    exists p, derived, mem, (length us), (new_record h n (email_of e) salt derived).
    repeat (split; [assumption|]).
    split. { rewrite Hus. apply list_lookup_middle. reflexivity. }
    repeat (split; [assumption|]). left. auto.
  - pose proof (Hobj i x Hfind) as Hox.
    destruct x as [| | | | |ps]; try discriminate.
    cbn in Hx. injection Hx as <-.
    destruct (find_Some _ _ _ _ Hfind) as (Hi & _ & _).
    destruct (updated_record_written h n (email_of e) salt derived ps)
      as (Hu & Hadm & Hs & Hh).
    exists p, derived, mem, i,
      (JObj (update_props h n (email_of e) salt derived ps)).
    repeat (split; [assumption|]).
    split. { rewrite Hus. apply list_lookup_insert_eq. now apply lookup_lt_Some in Hi. }
    repeat (split; [assumption|]). right. exists (JObj ps). auto.
Qed.

End AdminRecord.

(** ** Hexadecimal strings *)

Section Hex.

Lemma unhex_hex_byte (b : byte) : unhex_byte (hex_byte b) = Some b.
Proof. destruct b; reflexivity. Qed.

Lemma hex_byte_shape (b : byte) :
  exists c d, hex_byte b = String c (String d EmptyString) /\
              hex_char c = true /\ hex_char d = true.
Proof. destruct b; do 2 eexists; repeat split. Qed.

Lemma toHex_length (buf : list byte) :
  String.length (toHex buf) = 2 * length buf.
Proof.
  induction buf as [|b r IH]; [reflexivity|].
  cbn [toHex length]. destruct (hex_byte_shape b) as (c & d & -> & _).
  cbn. lia.
Qed.

Lemma toHex_chars (buf : list byte) (c : ascii) :
  In c (list_ascii_of_string (toHex buf)) -> hex_char c = true.
Proof.
  induction buf as [|b r IH]; [intros []|].
  cbn [toHex]. destruct (hex_byte_shape b) as (x & y & -> & Hx & Hy).
  cbn. intros [<-|[<-|H]]; auto.
Qed.

Lemma toHex_is_hex (buf : list byte) (n : nat) :
  length buf = n -> is_hex (2 * n) (toHex buf).
Proof.
  intros <-. split; [apply toHex_length | apply toHex_chars].
Qed.

Lemma toHex_inj (a b : list byte) : toHex a = toHex b -> a = b.
Proof.
  revert b; induction a as [|x a IH]; intros [|y b]; cbn [toHex].
  - reflexivity.
  - destruct (hex_byte_shape y) as (c & d & -> & _). discriminate.
  - destruct (hex_byte_shape x) as (c & d & -> & _). discriminate.
  - pose proof (unhex_hex_byte x) as Ux. pose proof (unhex_hex_byte y) as Uy.
    destruct (hex_byte_shape x) as (c & d & Ex & _).
    destruct (hex_byte_shape y) as (c' & d' & Ey & _).
    rewrite Ex, Ey in *. cbn [append]. intros [= -> -> Ht].
    rewrite Ux in Uy. injection Uy as ->. f_equal. now apply IH.
Qed.

End Hex.

(** ** Runs on a store that loads as empty (claims C2, C5, C6) *)

Section FreshStore.
Import Js.

Variable scrypt : string -> list byte -> nat -> error + list byte.

Lemma serialized_single_admin (h : host) (n : string) (email : option string)
    (derived : list byte) :
  serialized (single_admin h n email derived) = single_admin h n email derived.
Proof.
  unfold single_admin. cbn [serialized serialized_props List.map fst snd].
  now rewrite serialized_new_record.
Qed.

Lemma fresh_store_run (e : env) (h : host) (w : world) (n p : string)
    (derived : list byte) :
  load_db (users_file w) = empty_db ->
  valid_config e n p ->
  scrypt p (randomBytes16 h) 64 = inr derived ->
  no_fault h ->
  script scrypt e h w =
    (0, committed e n (single_admin h n (email_of e) derived) w).
Proof.
  intros Hload Hcfg Hkey Hnf.
  rewrite <- serialized_single_admin.
  apply (script_success scrypt e h w n p None derived); auto;
    rewrite Hload; reflexivity.
Qed.

(** The only record of [single_admin] is an admin record for [n]. *)
Lemma single_admin_record (h : host) (n : string) (email : option string)
    (derived : list byte) :
  exists r, single_admin h n email derived = JObj [("users", JArr [r])] /\
            created_admin n email (randomBytes16 h) derived r.
Proof.
  exists (new_record h n email (randomBytes16 h) derived).
  split; [reflexivity|]. unfold created_admin.
  destruct email; cbn; auto 10.
Qed.

(** The test of line 83 is the collection shape. *)
Lemma collection_shape_test (v : json) :
  truthy v && isArray (get v "users") = true <-> collection_shape v.
Proof.
  unfold collection_shape. split.
  - destruct v as [| | | | |ps]; cbn [get isArray truthy andb];
      rewrite ?andb_false_r; try discriminate.
    destruct (lookup_prop "users" ps) as [[]|] eqn:E; try discriminate. eauto.
  - intros (ps & l & -> & H). cbn. now rewrite H.
Qed.

Lemma corrupt_loads_empty (t : text) :
  corrupt t -> load_db (Holds t) = empty_db.
Proof.
  intros [(raw & ->) | (v & -> & H)]; [reflexivity|].
  cbn. destruct (truthy v && isArray (get v "users")) eqn:E; [|reflexivity].
  apply collection_shape_test in E. contradiction.
Qed.

Lemma load_throws_empty (f : file) : load_throws f -> load_db f = empty_db.
Proof. intros [-> | [(err & ->) | (raw & ->)]]; reflexivity. Qed.

(** C5.  When the backing file holds text that is not JSON, or JSON that
    is not an object with an array [users], a run with valid inputs on a
    host whose key derivation and writes succeed exits with status 0, and
    the store then holds exactly the newly created admin record: an
    object whose [users] has one element, which carries the user name,
    the address given, [role = "admin"], [disabled = false],
    [accessUntilMs = null], [quota = -1], the salt and the derived key. *)
Theorem corrupt_store_recovered (e : env) (h : host) (w : world)
    (t : text) (n p : string) (derived : list byte) :
  users_file w = Holds t ->
  corrupt t ->
  valid_config e n p ->
  scrypt p (randomBytes16 h) 64 = inr derived ->
  no_fault h ->
  fst (script scrypt e h w) = 0 /\
  users_file (snd (script scrypt e h w)) =
    Holds (Json (single_admin h n (email_of e) derived)) /\
  users_of (single_admin h n (email_of e) derived) =
    [new_record h n (email_of e) (randomBytes16 h) derived] /\
  exists r,
    users_file (snd (script scrypt e h w)) =
      Holds (Json (JObj [("users", JArr [r])])) /\
    created_admin n (email_of e) (randomBytes16 h) derived r.
Proof.
  intros Hf Hc Hcfg Hkey Hnf.
  rewrite (fresh_store_run e h w n p derived); auto.
  - repeat (split; [reflexivity|]).
    destruct (single_admin_record h n (email_of e) derived) as (r & Hr & Hadm).
    exists r. cbn [snd committed users_file]. now rewrite Hr.
  - rewrite Hf. now apply corrupt_loads_empty.
Qed.

(** C2, as the code has it.  Every exception raised while reading or
    parsing the backing file is recovered by substituting the empty
    collection, the missing file, every other I/O error (a permission
    error included) and a parse failure alike: [load] ends normally, and a
    run with valid inputs on a host whose key derivation and writes
    succeed exits with status 0 and replaces the store by the one holding
    the new admin record only, which carries the user name, the address
    given, [role = "admin"], [disabled = false], [accessUntilMs = null],
    [quota = -1], the salt and the derived key. *)
Theorem read_error_recovered (e : env) (h : host) (w : world)
    (n p : string) (derived : list byte) :
  load_throws (users_file w) ->
  valid_config e n p ->
  scrypt p (randomBytes16 h) 64 = inr derived ->
  no_fault h ->
  load w = (Normal empty_db, traced ReadFile w) /\
  fst (script scrypt e h w) = 0 /\
  users_file (snd (script scrypt e h w)) =
    Holds (Json (single_admin h n (email_of e) derived)) /\
  exists r,
    users_file (snd (script scrypt e h w)) =
      Holds (Json (JObj [("users", JArr [r])])) /\
    created_admin n (email_of e) (randomBytes16 h) derived r.
Proof.
  intros Hf Hcfg Hkey Hnf.
  assert (Hload : load_db (users_file w) = empty_db)
    by now apply load_throws_empty.
  split; [rewrite load_run; now rewrite Hload|].
  rewrite (fresh_store_run e h w n p derived) by assumption.
  repeat (split; [reflexivity|]).
  destruct (single_admin_record h n (email_of e) derived) as (r & Hr & Hadm).
  exists r. cbn [snd committed users_file]. now rewrite Hr.
Qed.

(** C6.  A run against an empty store with a valid user name and
    password, a 16-byte salt and a 64-byte derived key creates a record
    with [role = "admin"], [disabled = false], [accessUntilMs = null],
    [quota = -1], empty [unlocked] and [contentTokens], a [salt] of 32
    hexadecimal characters and a [passHash] of 128. *)
Theorem new_admin_record_shape (e : env) (h : host) (w : world)
    (n p : string) (derived : list byte) :
  empty_store (users_file w) ->
  valid_config e n p ->
  length (randomBytes16 h) = 16 ->
  scrypt p (randomBytes16 h) 64 = inr derived ->
  length derived = 64 ->
  no_fault h ->
  exists r salt passHash,
    fst (script scrypt e h w) = 0 /\
    users_file (snd (script scrypt e h w)) =
      Holds (Json (JObj [("users", JArr [r])])) /\
    get r "username" = Some (JStr n) /\
    get r "role" = Some (JStr "admin") /\
    get r "disabled" = Some (JBool false) /\
    get r "accessUntilMs" = Some JNull /\
    get r "quota" = Some (JNum "-1") /\
    get r "unlocked" = Some (JArr []) /\
    get r "contentTokens" = Some (JArr []) /\
    get r "salt" = Some (JStr salt) /\ is_hex 32 salt /\
    get r "passHash" = Some (JStr passHash) /\ is_hex 128 passHash.
Proof.
  intros Hf Hcfg Hs Hkey Hk Hnf.
  assert (Hload : load_db (users_file w) = empty_db)
    by (destruct Hf as [-> | ->]; reflexivity).
  pose proof (new_record_fields h n (email_of e) (randomBytes16 h) derived)
    as (_ & Hu & Hr & Hsalt & Hph & Hq & Hun & Hct & Hd & Ha & _).
  exists (new_record h n (email_of e) (randomBytes16 h) derived),
    (toHex (randomBytes16 h)), (toHex derived).
  rewrite (fresh_store_run e h w n p derived); auto.
  repeat (split; [first [reflexivity | assumption]|]).
  split; [now apply (toHex_is_hex _ 16)|].
  split; [exact Hph|]. now apply (toHex_is_hex _ 64).
Qed.

End FreshStore.

(** ** Configuration errors (claim C7) *)

Section Configuration.

Variable scrypt : string -> list byte -> nat -> error + list byte.

Lemma usage_exits {A} (msg : string) (w : world) :
  exists w', @usage A msg w = (Exit 1, w') /\ store_untouched w w' /\
             stdout w' = stdout w /\
             stderr w' = (stderr w ++ [msg; "Usage:";
               "  ADMIN_USER='Camoflage' ADMIN_PASS='...' node scripts/bootstrap-admin.js"])%list.
Proof.
  eexists. split; [reflexivity|]. cbn. repeat split.
  now rewrite <- !app_assoc.
Qed.

(** Every configuration error ends the process with status 1 before the
    first system call. *)
Lemma config_error_no_io (e : env) (h : host) (w : world) :
  config_error e ->
  fst (script scrypt e h w) = 1 /\
  store_untouched w (snd (script scrypt e h w)) /\
  stdout (snd (script scrypt e h w)) = stdout w.
Proof.
  intros Herr. unfold script, bind.
  destruct (is_empty (ADMIN_USER e)) eqn:Hu.
  { destruct (@usage_exits unit "Missing ADMIN_USER." w) as (w' & -> & ? & ? & _).
    cbn. auto. }
  cbn [ret].
  destruct (is_empty (ADMIN_PASS e)) eqn:Hp.
  { destruct (@usage_exits unit "Missing ADMIN_PASS." w) as (w' & -> & ? & ? & _).
    cbn. auto. }
  cbn [ret]. unfold try_catch, main, bind.
  destruct (cleanUsername (ADMIN_USER e)) as [u|] eqn:Hcu.
  2:{ destruct (@usage_exits string
                  "Invalid ADMIN_USER (3-32 chars, letters/digits/._- only)." w)
        as (w' & -> & ? & ? & _). cbn. auto. }
  cbn [ret].
  destruct (normalizePassword (ADMIN_PASS e)) as [p|] eqn:Hnp.
  2:{ destruct (@usage_exits string "Invalid ADMIN_PASS (min 8 chars)." w)
        as (w' & -> & ? & ? & _). cbn. auto. }
  cbn [ret].
  destruct Herr as [H | [H | [H | [H | [Hne Hbad]]]]];
    try (apply is_empty_false in Hu; contradiction);
    try (apply is_empty_false in Hp; contradiction);
    try congruence.
  apply is_empty_false in Hne. rewrite Hne, Hbad. cbn [negb andb is_null].
  destruct (@usage_exits unit "Invalid ADMIN_EMAIL." w) as (w' & -> & ? & ? & _).
  cbn. auto.
Qed.


End Configuration.

(** ** Updating a matched record (claims C1, C4, C10) *)

Section Update.
Import Js.

Variable scrypt : string -> list byte -> nat -> error + list byte.

(** A successful run that finds an object for the user name replaces it,
    in place, by its update, leaves every other entry alone, and writes
    the collection [mem] it then has in memory. *)
Lemma matched_record_updated (e : env) (h : host) (w : world) (n : string)
    (i : nat) (ps : props) :
  fst (script scrypt e h w) = 0 ->
  cleanUsername (ADMIN_USER e) = Some n ->
  find n (users_of (load_db (users_file w))) = inr (Some (i, JObj ps)) ->
  exists p derived mem,
    valid_config e n p /\
    scrypt p (randomBytes16 h) 64 = inr derived /\
    script scrypt e h w = (0, committed e n (serialized mem) w) /\
    (forall k, k <> "users" -> get mem k = get (load_db (users_file w)) k) /\
    users_of mem =
      <[i := JObj (update_props h n (email_of e) (randomBytes16 h) derived ps)]>
        (users_of (load_db (users_file w))) /\
    i < length (users_of (load_db (users_file w))).
Proof.
  intros H0 Hn Hfind.
  destruct (success_cases scrypt e h w H0)
    as (n' & p & derived & db' & Hcfg & Hkey & Hrun & Hkeys & Hcase).
  assert (n' = n) as -> by (destruct Hcfg as (Hu & _); congruence).
  exists p, derived, db'. repeat (split; [assumption|]).
  destruct (find_Some _ _ _ _ Hfind) as (Hi & _).
  apply lookup_lt_Some in Hi. split; [|exact Hi].
  destruct Hcase as [(found & Hf & Hor & _) | (j & x & x' & Hf & _ & Hx & Hus)];
    rewrite Hfind in Hf.
  - injection Hf as <-. discriminate.
  - injection Hf as <- <-. cbn in Hx. injection Hx as <-. exact Hus.
Qed.

(** The entry at the position of the update, as it is written. *)
Lemma written_insert_eq (mem : json) (us : list json) (i : nat) (qs : props) :
  users_of mem = <[i := JObj qs]> us -> i < length us ->
  users_of (serialized mem) !! i = Some (JObj (serialized_props serialized qs)).
Proof.
  intros Hus Hi. rewrite users_of_serialized, Hus, map_insert.
  apply list_lookup_insert_eq. now rewrite List.length_map.
Qed.

(** The other entries, as they are written. *)
Lemma written_insert_ne (mem : json) (us : list json) (i j : nat) (x : json) :
  users_of mem = <[i := x]> us -> j <> i ->
  users_of (serialized mem) !! j = option_map serialized (us !! j).
Proof.
  intros Hus Hj. rewrite users_of_serialized, Hus, map_insert.
  rewrite list_lookup_insert_ne by congruence. apply lookup_map.
Qed.


(** C4, as the code has it.  When a successful run updates a matched
    record, a truthy [createdAt] is never replaced: the record is written
    with the value it had, as [JSON.stringify] writes it, which is that
    very value unless a number beyond the range of a double occurs in it
    (such a number is written as [null]); the timestamp set at creation
    is a string and so is unchanged.  [createdAt] is set to the current
    time when it is absent or holds a falsy value ([null], [false], [0]
    or the empty string). *)
Theorem createdAt_kept_when_truthy (e : env) (h : host) (w : world)
    (n : string) (i : nat) (ps : props) :
  fst (script scrypt e h w) = 0 ->
  cleanUsername (ADMIN_USER e) = Some n ->
  find n (users_of (load_db (users_file w))) = inr (Some (i, JObj ps)) ->
  exists db' ps',
    users_file (snd (script scrypt e h w)) = Holds (Json db') /\
    users_of db' !! i = Some (JObj ps') /\
    (forall v, lookup_prop "createdAt" ps = Some v -> truthy v = true ->
               lookup_prop "createdAt" ps' = Some (serialized v)) /\
    (forall v, lookup_prop "createdAt" ps = Some v -> truthy v = true ->
               all_finite v = true ->
               lookup_prop "createdAt" ps' = Some v) /\
    (forall s, lookup_prop "createdAt" ps = Some (JStr s) -> s <> "" ->
               lookup_prop "createdAt" ps' = Some (JStr s)) /\
    (truthy_opt (lookup_prop "createdAt" ps) = false ->
     lookup_prop "createdAt" ps' = Some (JStr (now h))).
Proof.
  intros H0 Hn Hfind.
  destruct (matched_record_updated e h w n i ps H0 Hn Hfind)
    as (p & derived & mem & _ & _ & Hrun & _ & Hus & Hi).
  exists (serialized mem),
    (serialized_props serialized
       (update_props h n (email_of e) (randomBytes16 h) derived ps)).
  rewrite Hrun. split; [reflexivity|].
  split; [now apply (written_insert_eq mem _ i _ Hus)|].
  rewrite lookup_serialized, update_props_createdAt.
  assert (Hkept : forall v, lookup_prop "createdAt" ps = Some v ->
            truthy v = true ->
            option_map serialized
              (if truthy_opt (lookup_prop "createdAt" ps)
               then lookup_prop "createdAt" ps else Some (JStr (now h))) =
            Some (serialized v)).
  { intros v Hv Ht. rewrite Hv. cbn [truthy_opt]. now rewrite Ht. }
  split; [exact Hkept|].
  split; [intros v Hv Ht Hfin; rewrite (Hkept v Hv Ht);
          now rewrite serialized_finite|].
  split.
  - intros s Hs Hne. apply (Hkept (JStr s) Hs). cbn.
    destruct s; [contradiction | reflexivity].
  - now intros ->.
Qed.

(** C10, as the code has it.  When a successful run updates a matched
    record, the record keeps its [id] and every property other than
    [username], [email], [role], [salt], [passHash], [quota],
    [unlocked], [contentTokens], [disabled], [accessUntilMs] and
    [createdAt], the other entries of [users] keep their places, and
    every top-level property of the loaded file object other than
    [users] is in the persisted object, each with the value it had as
    [JSON.stringify] writes it: that very value when every number in it
    is within the range of a double, and otherwise the value with [null]
    for each number that is not. *)
Theorem update_preserves_other_fields (e : env) (h : host) (w : world)
    (parsed : json) (n : string) (i : nat) (ps : props) :
  fst (script scrypt e h w) = 0 ->
  cleanUsername (ADMIN_USER e) = Some n ->
  users_file w = Holds (Json parsed) ->
  truthy parsed && isArray (get parsed "users") = true ->
  find n (users_of parsed) = inr (Some (i, JObj ps)) ->
  exists db' ps',
    users_file (snd (script scrypt e h w)) = Holds (Json db') /\
    (forall k, k <> "users" ->
               get db' k = option_map serialized (get parsed k)) /\
    (forall k v, k <> "users" -> get parsed k = Some v ->
                 all_finite v = true -> get db' k = Some v) /\
    users_of db' !! i = Some (JObj ps') /\
    lookup_prop "id" ps' = option_map serialized (lookup_prop "id" ps) /\
    (forall k, ~ In k written_fields ->
               lookup_prop k ps' = option_map serialized (lookup_prop k ps)) /\
    (forall k v, ~ In k written_fields -> lookup_prop k ps = Some v ->
                 all_finite v = true -> lookup_prop k ps' = Some v) /\
    (forall j, j <> i ->
               users_of db' !! j = option_map serialized (users_of parsed !! j)).
Proof.
  intros H0 Hn Hfile Hshape Hfind.
  pose proof (load_db_loaded parsed Hshape) as Hload.
  rewrite <- Hfile in Hload. rewrite <- Hload in Hfind.
  destruct (matched_record_updated e h w n i ps H0 Hn Hfind)
    as (p & derived & mem & _ & _ & Hrun & Hkeys & Hus & Hi).
  rewrite Hload in *.
  exists (serialized mem),
    (serialized_props serialized
       (update_props h n (email_of e) (randomBytes16 h) derived ps)).
  rewrite Hrun. split; [reflexivity|].
  assert (Htop : forall k, k <> "users" ->
            get (serialized mem) k = option_map serialized (get parsed k)).
  { intros k Hk. now rewrite get_serialized, Hkeys. }
  assert (Hframe : forall k, ~ In k written_fields ->
            lookup_prop k
              (serialized_props serialized
                 (update_props h n (email_of e) (randomBytes16 h) derived ps)) =
            option_map serialized (lookup_prop k ps)).
  { intros k Hk. now rewrite lookup_serialized, update_props_frame. }
  split; [exact Htop|].
  split. { intros k v Hk Hv Hfin. rewrite (Htop k Hk), Hv. cbn.
           now rewrite serialized_finite. }
  split; [now apply (written_insert_eq mem _ i _ Hus)|].
  split; [apply Hframe; cbn; intuition discriminate|].
  split; [exact Hframe|].
  split. { intros k v Hk Hv Hfin. rewrite (Hframe k Hk), Hv. cbn.
           now rewrite serialized_finite. }
  intros j Hj. now apply (written_insert_ne mem _ i j _ Hus).
Qed.

End Update.

(** ** Running twice (claim C3) *)

Section Rerun.
Import Js.

Variable scrypt : string -> list byte -> nat -> error + list byte.

Lemma find_new_record (h : host) (n : string) (email : option string)
    (salt derived : list byte) :
  find n [new_record h n email salt derived] =
    inr (Some (0, new_record h n email salt derived)).
Proof.
  cbn [find]. unfold username_key.
  pose proof (new_record_fields h n email salt derived) as (_ & Hu & _).
  cbn zeta in Hu. unfold new_record in *. cbn [truthy]. rewrite Hu.
  cbn [String_ to_string]. now rewrite String.eqb_refl.
Qed.

(** C3.  Two runs with the same valid user name and password, starting
    from a store without users, both succeed and leave exactly one record
    for the user name.  The second run stores the salt it drew and the
    key derived from it; as the two salts drawn differ, the stored pairs
    of [salt] and [passHash] differ although the password is the same. *)
Theorem rerun_rotates_credential (e : env) (h1 h2 : host) (w : world)
    (n p : string) (k1 k2 : list byte) :
  valid_config e n p ->
  users_of (load_db (users_file w)) = [] ->
  no_fault h1 -> no_fault h2 ->
  scrypt p (randomBytes16 h1) 64 = inr k1 ->
  scrypt p (randomBytes16 h2) 64 = inr k2 ->
  randomBytes16 h1 <> randomBytes16 h2 ->
  exists db1 db2 r1 r2,
    script scrypt e h1 w = (0, committed e n db1 w) /\
    script scrypt e h2 (committed e n db1 w) =
      (0, committed e n db2 (committed e n db1 w)) /\
    users_of db1 = [r1] /\ users_of db2 = [r2] /\
    count_named n (users_of db2) = 1 /\
    get r1 "salt" = Some (JStr (toHex (randomBytes16 h1))) /\
    get r1 "passHash" = Some (JStr (toHex k1)) /\
    get r2 "username" = Some (JStr n) /\
    get r2 "salt" = Some (JStr (toHex (randomBytes16 h2))) /\
    get r2 "passHash" = Some (JStr (toHex k2)) /\
    (get r1 "salt", get r1 "passHash") <> (get r2 "salt", get r2 "passHash").
Proof.
  intros Hcfg Hempty Hnf1 Hnf2 Hk1 Hk2 Hfresh.
  destruct (load_db_object (users_file w)) as (ps0 & l0 & Hdb0 & _).
  set (r1 := new_record h1 n (email_of e) (randomBytes16 h1) k1).
  set (qs1 := serialized_props serialized (assign_prop "users" (JArr [r1]) ps0)).
  set (db1 := JObj qs1).
  assert (Hdb1 : db1 = serialized (with_users (JObj ps0) [r1])) by reflexivity.
  assert (Hrun1 : script scrypt e h1 w = (0, committed e n db1 w)).
  { rewrite Hdb1. apply (script_success scrypt e h1 w n p None k1); auto.
    - now rewrite Hempty.
    - cbn [or_null upsert]. now rewrite Hempty, Hdb0. }
  assert (Hus1 : users_of db1 = [r1]).
  { rewrite Hdb1, users_of_serialized, users_of_with_users.
    cbn [List.map]. unfold r1. now rewrite serialized_new_record. }
  assert (Hload1 : load_db (users_file (committed e n db1 w)) = db1).
  { apply load_db_loaded. unfold users_of in Hus1.
    destruct (get db1 "users") as [[]|]; try discriminate. reflexivity. }
  destruct (new_record_fields h1 n (email_of e) (randomBytes16 h1) k1)
    as (_ & _ & _ & Hs1 & Hp1 & _).
  fold r1 in Hs1, Hp1.
  assert (Hobj : exists ps1, r1 = JObj ps1) by (unfold r1, new_record; eauto).
  destruct Hobj as (ps1 & Hr1).
  set (m2 := JObj (update_props h2 n (email_of e) (randomBytes16 h2) k2 ps1)).
  set (r2 := serialized m2).
  set (db2 := serialized (with_users db1 [m2])).
  assert (Hrun2 : script scrypt e h2 (committed e n db1 w) =
                  (0, committed e n db2 (committed e n db1 w))).
  { apply (script_success scrypt e h2 _ n p (Some (0, r1)) k2); auto.
    - rewrite Hload1, Hus1. apply find_new_record.
    - rewrite Hload1. unfold upsert. rewrite Hr1. cbn [or_null truthy].
      cbn [update_record]. rewrite Hus1. reflexivity. }
  destruct (updated_record_written h2 n (email_of e) (randomBytes16 h2) k2 ps1)
    as (Hu2 & _ & Hs2 & Hp2).
  fold m2 in Hu2, Hs2, Hp2. fold r2 in Hu2, Hs2, Hp2.
  exists db1, db2, r1, r2.
  split; [exact Hrun1|]. split; [exact Hrun2|]. split; [exact Hus1|].
  assert (Hus2 : users_of db2 = [r2]).
  { unfold db2. rewrite users_of_serialized. unfold db1.
    now rewrite users_of_with_users. }
  split; [exact Hus2|]. split.
  { rewrite Hus2. unfold count_named. cbn [List.filter].
    now rewrite (named_get_username n r2 Hu2). }
  repeat (split; [assumption|]).
  rewrite Hs1, Hs2. intros [= Heq]. apply toHex_inj in Heq. contradiction.
Qed.

End Rerun.

(** ** Concrete runs *)

Lemma sample_valid_config : valid_config sample_env "root-ops" "correcthorse1".
Proof. repeat split. now left. Defined.

Lemma sample_no_fault1 : no_fault host1.
Proof. split; reflexivity. Defined.

Lemma sample_no_fault2 : no_fault host2.
Proof. split; reflexivity. Defined.



(** C2: reading fails with a permission error, yet the run exits with
    status 0 and replaces the store. *)
Lemma read_error_counterexample :
  users_file (world_with (Unreadable EACCES)) = Unreadable EACCES /\
  fst (script sample_scrypt sample_env host1
         (world_with (Unreadable EACCES))) = 0 /\
  users_file (snd (script sample_scrypt sample_env host1
                     (world_with (Unreadable EACCES)))) =
    Holds (Json (single_admin host1 "root-ops" None (repeat x07 64))).
Proof. vm_compute. repeat split. Qed.

Lemma read_error_recovered_witness :
  load (world_with (Unreadable EACCES)) =
    (Normal empty_db, traced ReadFile (world_with (Unreadable EACCES))) /\
  fst (script sample_scrypt sample_env host1
         (world_with (Unreadable EACCES))) = 0 /\
  users_file (snd (script sample_scrypt sample_env host1
                     (world_with (Unreadable EACCES)))) =
    Holds (Json (single_admin host1 "root-ops" (email_of sample_env)
                   (repeat x07 64))) /\
  exists r,
    users_file (snd (script sample_scrypt sample_env host1
                       (world_with (Unreadable EACCES)))) =
      Holds (Json (JObj [("users", JArr [r])])) /\
    created_admin "root-ops" (email_of sample_env) (randomBytes16 host1)
      (repeat x07 64) r.
Proof.
  apply (read_error_recovered sample_scrypt sample_env host1
           (world_with (Unreadable EACCES)) "root-ops" "correcthorse1").
  - right; left. now exists EACCES.
  - exact sample_valid_config.
  - reflexivity.
  - exact sample_no_fault1.
Defined.

Lemma rerun_rotates_credential_witness :
  exists db1 db2 r1 r2,
    script sample_scrypt sample_env host1 (world_with Missing) =
      (0, committed sample_env "root-ops" db1 (world_with Missing)) /\
    script sample_scrypt sample_env host2
        (committed sample_env "root-ops" db1 (world_with Missing)) =
      (0, committed sample_env "root-ops" db2
            (committed sample_env "root-ops" db1 (world_with Missing))) /\
    users_of db1 = [r1] /\ users_of db2 = [r2] /\
    count_named "root-ops" (users_of db2) = 1 /\
    Js.get r1 "salt" = Some (JStr (toHex (randomBytes16 host1))) /\
    Js.get r1 "passHash" = Some (JStr (toHex (repeat x07 64))) /\
    Js.get r2 "username" = Some (JStr "root-ops") /\
    Js.get r2 "salt" = Some (JStr (toHex (randomBytes16 host2))) /\
    Js.get r2 "passHash" = Some (JStr (toHex (repeat xc4 64))) /\
    (Js.get r1 "salt", Js.get r1 "passHash") <>
      (Js.get r2 "salt", Js.get r2 "passHash").
Proof.
  apply (rerun_rotates_credential sample_scrypt sample_env host1 host2
           (world_with Missing) "root-ops" "correcthorse1").
  - exact sample_valid_config.
  - reflexivity.
  - exact sample_no_fault1.
  - exact sample_no_fault2.
  - reflexivity.
  - reflexivity.
  - vm_compute. discriminate.
Defined.

(** C4: the matched record has [createdAt: 0], a value that is present, and
    the run overwrites it with the current time. *)
Lemma createdAt_counterexample :
  map (fun r => Js.get r "createdAt") (users_of store_with_epoch) =
    [Some (JNum "0")] /\
  fst (script sample_scrypt sample_env host1
         (world_with (Holds (Json store_with_epoch)))) = 0 /\
  map (fun r => Js.get r "createdAt")
    (persisted (snd (script sample_scrypt sample_env host1
                       (world_with (Holds (Json store_with_epoch)))))) =
    [Some (JStr "2024-05-01T10:00:00.000Z")].
Proof. vm_compute. repeat split. Qed.

Lemma createdAt_kept_when_truthy_witness :
  exists db' ps',
    users_file (snd (script sample_scrypt sample_env host1
                       (world_with (Holds (Json store_with_ops))))) =
      Holds (Json db') /\
    users_of db' !! 1 = Some (JObj ps') /\
    (forall v, Js.lookup_prop "createdAt" old_ops_props = Some v ->
               Js.truthy v = true ->
               Js.lookup_prop "createdAt" ps' = Some (Js.serialized v)) /\
    (forall v, Js.lookup_prop "createdAt" old_ops_props = Some v ->
               Js.truthy v = true -> all_finite v = true ->
               Js.lookup_prop "createdAt" ps' = Some v) /\
    (forall s, Js.lookup_prop "createdAt" old_ops_props = Some (JStr s) ->
               s <> "" -> Js.lookup_prop "createdAt" ps' = Some (JStr s)) /\
    (Js.truthy_opt (Js.lookup_prop "createdAt" old_ops_props) = false ->
     Js.lookup_prop "createdAt" ps' = Some (JStr (now host1))).
Proof.
  apply (createdAt_kept_when_truthy sample_scrypt sample_env host1
           (world_with (Holds (Json store_with_ops))) "root-ops" 1 old_ops_props).
  - reflexivity.
  - reflexivity.
  - reflexivity.
Defined.

Lemma corrupt_store_recovered_witness :
  fst (script sample_scrypt sample_env host1
         (world_with (Holds (Garbage "{ users: [")))) = 0 /\
  users_file (snd (script sample_scrypt sample_env host1
                     (world_with (Holds (Garbage "{ users: ["))))) =
    Holds (Json (single_admin host1 "root-ops" (email_of sample_env)
                   (repeat x07 64))) /\
  users_of (single_admin host1 "root-ops" (email_of sample_env) (repeat x07 64)) =
    [new_record host1 "root-ops" (email_of sample_env) (randomBytes16 host1)
       (repeat x07 64)] /\
  exists r,
    users_file (snd (script sample_scrypt sample_env host1
                       (world_with (Holds (Garbage "{ users: ["))))) =
      Holds (Json (JObj [("users", JArr [r])])) /\
    created_admin "root-ops" (email_of sample_env) (randomBytes16 host1)
      (repeat x07 64) r.
Proof.
  apply (corrupt_store_recovered sample_scrypt sample_env host1
           (world_with (Holds (Garbage "{ users: [")))
           (Garbage "{ users: [") "root-ops" "correcthorse1").
  - reflexivity.
  - left. now exists "{ users: [".
  - exact sample_valid_config.
  - reflexivity.
  - exact sample_no_fault1.
Defined.

Lemma new_admin_record_shape_witness :
  exists r salt passHash,
    fst (script sample_scrypt sample_env host1 (world_with Missing)) = 0 /\
    users_file (snd (script sample_scrypt sample_env host1 (world_with Missing))) =
      Holds (Json (JObj [("users", JArr [r])])) /\
    Js.get r "username" = Some (JStr "root-ops") /\
    Js.get r "role" = Some (JStr "admin") /\
    Js.get r "disabled" = Some (JBool false) /\
    Js.get r "accessUntilMs" = Some JNull /\
    Js.get r "quota" = Some (JNum "-1") /\
    Js.get r "unlocked" = Some (JArr []) /\
    Js.get r "contentTokens" = Some (JArr []) /\
    Js.get r "salt" = Some (JStr salt) /\ is_hex 32 salt /\
    Js.get r "passHash" = Some (JStr passHash) /\ is_hex 128 passHash.
Proof.
  apply (new_admin_record_shape sample_scrypt sample_env host1
           (world_with Missing) "root-ops" "correcthorse1" (repeat x07 64)).
  - left. reflexivity.
  - exact sample_valid_config.
  - reflexivity.
  - reflexivity.
  - reflexivity.
  - exact sample_no_fault1.
Defined.



(** C10: the file has [1e999], read as [Infinity], for the top-level
    [version] and for the [bonus] of the matched record; the run updates
    the record and the store then has [null] for both. *)
Lemma update_preserves_counterexample :
  Js.get store_with_overflow "version" = Some (JNum "Infinity") /\
  map (fun r => Js.get r "bonus") (users_of store_with_overflow) =
    [Some (JNum "Infinity")] /\
  find "root-ops" (users_of store_with_overflow) =
    inr (Some (0, JObj overflow_ops_props)) /\
  fst (script sample_scrypt sample_env host1
         (world_with (Holds (Json store_with_overflow)))) = 0 /\
  Js.get (stored (snd (script sample_scrypt sample_env host1
                         (world_with (Holds (Json store_with_overflow))))))
    "version" = Some JNull /\
  map (fun r => Js.get r "bonus")
    (persisted (snd (script sample_scrypt sample_env host1
                       (world_with (Holds (Json store_with_overflow)))))) =
    [Some JNull].
Proof. vm_compute. repeat split. Qed.

Lemma update_preserves_other_fields_witness :
  exists db' ps',
    users_file (snd (script sample_scrypt sample_env host1
                       (world_with (Holds (Json store_with_ops))))) =
      Holds (Json db') /\
    (forall k, k <> "users" ->
               Js.get db' k = option_map Js.serialized (Js.get store_with_ops k)) /\
    (forall k v, k <> "users" -> Js.get store_with_ops k = Some v ->
                 all_finite v = true -> Js.get db' k = Some v) /\
    users_of db' !! 1 = Some (JObj ps') /\
    Js.lookup_prop "id" ps' =
      option_map Js.serialized (Js.lookup_prop "id" old_ops_props) /\
    (forall k, ~ In k written_fields ->
       Js.lookup_prop k ps' =
       option_map Js.serialized (Js.lookup_prop k old_ops_props)) /\
    (forall k v, ~ In k written_fields ->
       Js.lookup_prop k old_ops_props = Some v ->
       all_finite v = true -> Js.lookup_prop k ps' = Some v) /\
    (forall j, j <> 1 ->
       users_of db' !! j =
       option_map Js.serialized (users_of store_with_ops !! j)).
Proof.
  apply (update_preserves_other_fields sample_scrypt sample_env host1
           (world_with (Holds (Json store_with_ops))) store_with_ops
           "root-ops" 1 old_ops_props).
  - reflexivity.
  - reflexivity.
  - reflexivity.
  - reflexivity.
  - reflexivity.
Defined.

(** A white-space-only [ADMIN_EMAIL] is trimmed to the empty string on
    line 15 and counts as no address: the run goes on without one. *)
Example blank_email_is_absent :
  ADMIN_EMAIL blank_email_env = "" /\
  fst (script sample_scrypt blank_email_env host1 (world_with Missing)) = 0.
Proof. split; reflexivity. Qed.

(** An entry that is an array has no [username], so [find] sees it under
    the name ["undefined"]: the run for that user name assigns to the
    array, succeeds, and the store holds no record for the name.  The
    properties about the record of a run are therefore stated for runs
    in which the entry found is an object. *)
Example array_entry_matched :
  fst (script sample_scrypt undefined_env host1
         (world_with (Holds (Json store_with_array)))) = 0 /\
  persisted (snd (script sample_scrypt undefined_env host1
                    (world_with (Holds (Json store_with_array)))))
    = [JArr []].
Proof. split; reflexivity. Qed.

(** A [createdAt] beyond the range of a double is truthy: the update
    leaves it alone, and [JSON.stringify] writes it as [null]. *)
Example createdAt_overflow_written_null :
  map (fun r => Js.get r "createdAt") (users_of store_with_overflow_date) =
    [Some (JNum "Infinity")] /\
  Js.truthy (JNum "Infinity") = true /\
  fst (script sample_scrypt sample_env host1
         (world_with (Holds (Json store_with_overflow_date)))) = 0 /\
  map (fun r => Js.get r "createdAt")
    (persisted (snd (script sample_scrypt sample_env host1
                       (world_with (Holds (Json store_with_overflow_date)))))) =
    [Some JNull].
Proof. vm_compute. repeat split. Qed.

(** A string entry is matched in the same way, and the first assignment to
    it throws: the run exits with status 1 and writes nothing. *)
Example string_entry_throws :
  script sample_scrypt undefined_env host1
    (world_with (Holds (Json (JObj [("users", JArr [JStr "x"])])))) =
  (1, {| users_file := Holds (Json (JObj [("users", JArr [JStr "x"])]));
         tmp_file := Missing; trace := [Mkdir; ReadFile]; stdout := [];
         stderr := ["TypeError"] |}).
Proof. reflexivity. Qed.

(** * Further properties of the script *)

(** ** The validators again *)

Section ValidatorsAgain.

Local Abbreviation chars := list_ascii_of_string.

Lemma trimStart_fixed (s : string) :
  (forall c t, s = String c t -> is_space c = false) -> trimStart s = s.
Proof.
  destruct s as [|c t]; [reflexivity|]. intros H. simpl.
  now rewrite (H c t eq_refl).
Qed.

Lemma trimEnd_fixed (s : string) :
  (forall a c, s = a ++ String c "" -> is_space c = false) -> trimEnd s = s.
Proof.
  induction s as [|c r IH]; [reflexivity|]. intros H. simpl.
  rewrite IH.
  - destruct r as [|d r']; [|reflexivity].
    now rewrite (H "" c eq_refl).
  - intros a d ->. apply (H (String c a) d). reflexivity.
Qed.

Lemma trim_idempotent (s : string) : trim (trim s) = trim s.
Proof.
  destruct (trim_spec s) as (_ & _ & _ & _ & _ & Hhead & Hlast).
  unfold trim at 1. rewrite (trimStart_fixed _ Hhead).
  now apply trimEnd_fixed.
Qed.

Lemma trim_without_space (s : string) :
  (forall c, In c (chars s) -> is_space c = false) -> trim s = s.
Proof.
  intros H. unfold trim. rewrite trimStart_fixed.
  - apply trimEnd_fixed. intros a c ->. apply H.
    apply in_app_string. right. now left.
  - intros c t ->. apply H. now left.
Qed.

(** X6.  [cleanUsername] does not care whether its input was trimmed
    before, as [ADMIN_USER] is on line 13, and a user name it returns is
    returned unchanged when validated again. *)
Theorem cleanUsername_stable (raw : string) :
  cleanUsername (trim raw) = cleanUsername raw /\
  (forall u, cleanUsername raw = Some u -> cleanUsername u = Some u).
Proof.
  assert (H : cleanUsername (trim raw) = cleanUsername raw).
  { unfold cleanUsername. now rewrite trim_idempotent. }
  split; [exact H|].
  intros u Hu. assert (u = trim raw) as ->.
  { apply cleanUsername_Some in Hu. tauto. }
  now rewrite H.
Qed.

Lemma class_without_space (c : ascii) :
  class_has local_class c = true \/ class_has domain_class c = true \/
  c = "@"%char ->
  is_space c = false.
Proof.
  destruct c as [[] [] [] [] [] [] [] []]; vm_compute;
    (intros [H | [H | H]]; try discriminate H); reflexivity.
Qed.

Lemma indexOf_app (c : ascii) (a b : string) :
  ~ In c (chars a) ->
  indexOf c (a ++ String c b) = Z.of_nat (String.length a).
Proof.
  induction a as [|d a IH]; intros Hno; cbn [append indexOf String.length].
  - now rewrite Ascii.eqb_refl.
  - destruct (Ascii.eqb_spec d c) as [->|Hdc]; [elim Hno; now left|].
    rewrite IH by (intros Hin; apply Hno; now right).
    destruct (String.length a); simpl; [reflexivity|].
    f_equal. lia.
Qed.

Lemma take_app_length (a b : string) : take (String.length a) (a ++ b) = a.
Proof. induction a; simpl; [now destruct b | congruence]. Qed.

Lemma drop_app_succ (a b : string) (c : ascii) :
  drop (S (String.length a)) (a ++ String c b) = b.
Proof. induction a; simpl; auto. Qed.

Lemma in_includes (c : ascii) (s : string) :
  In c (chars s) -> includes s (String c "") = true.
Proof.
  induction s as [|d s IH]; [intros []|].
  intros [-> | H]; cbn [includes]; apply orb_true_iff.
  - left. apply startsWith_spec. now exists s.
  - right. now apply IH.
Qed.

Lemma all_chars_class (k : class) (s : string) :
  (forall c, In c (chars s) -> class_has k c = true) ->
  all_chars (class_has k) s = true.
Proof. intros H. now apply all_chars_spec. Qed.

(** What an accepted address satisfies. *)
Lemma normalizeEmail_form (raw r : string) :
  normalizeEmail raw = Some r ->
  r = toLowerCase (trim raw) /\ email_accepted_form r.
Proof.
  unfold normalizeEmail.
  set (e := toLowerCase (trim raw)).
  destruct (is_empty e) eqn:Hne; [discriminate|].
  destruct (Z.gtb_spec (len e) 254) as [|H254]; [discriminate|].
  destruct (test_space e); [discriminate|].
  destruct (indexOf_spec "@" e) as [[-> _] | (n & -> & Hlt & Hsplit & Hno)];
    [discriminate|].
  destruct (Z.leb_spec (Z.of_nat n) 0) as [|Hpos]; [discriminate|].
  destruct (Z.eqb_spec (Z.of_nat n) (len e - 1)) as [|Hlast]; [discriminate|].
  cbn [orb]. unfold slice, slice_from.
  replace (Z.to_nat (Z.of_nat n - 0)) with n by lia.
  replace (Z.to_nat (Z.of_nat n + 1)) with (S n) by lia.
  change (drop (Z.to_nat 0) e) with e.
  assert (Hn : String.length (take n e) = n) by (apply length_take; lia).
  set (local := take n e) in *. set (domain := drop (S n) e) in *.
  destruct (Z.gtb_spec (len local) 64) as [|H64]; [discriminate|].
  destruct (Z.ltb_spec (len domain) 3) as [|Hd3]; [discriminate|].
  destruct (includes domain ".") eqn:Hdot; [|discriminate].
  destruct (test_plus local_class local) eqn:Hlc; [|discriminate].
  destruct (test_plus domain_class domain) eqn:Hdc; [|discriminate].
  destruct (startsWith domain ".") eqn:Hsw; [discriminate|].
  destruct (endsWith domain ".") eqn:Hew; [discriminate|].
  destruct (includes domain "..") eqn:Hdd; [discriminate|].
  cbn [negb orb]. intros [= <-]. split; [reflexivity|].
  unfold len in *. split; [lia|].
  exists local, domain. repeat split; try lia.
  - exact Hsplit.
  - intros c Hc. now apply (test_plus_chars _ _ _ Hlc).
  - intros c Hc. now apply (test_plus_chars _ _ _ Hdc).
  - now apply includes_dot.
  - intros H. apply startsWith_spec in H. congruence.
  - intros H. apply endsWith_spec in H. congruence.
  - intros H. apply includes_spec in H. congruence.
Qed.

(** Conversely, a string of that form is accepted once it is the
    trimmed, lowercased input. *)
Lemma normalizeEmail_accepts (raw : string) :
  email_accepted_form (toLowerCase (trim raw)) ->
  normalizeEmail raw = Some (toLowerCase (trim raw)).
Proof.
  unfold normalizeEmail. set (e := toLowerCase (trim raw)).
  intros (Hlen & local & domain & He & [Hl1 Hl64] & Hd3 & Hlc & Hdc & Hdot &
          Hsw & Hew & Hdd).
  assert (Hnat : ~ In "@"%char (chars local)).
  { intros Hin. specialize (Hlc _ Hin). discriminate Hlc. }
  assert (Hlen_e : String.length e = String.length local + S (String.length domain)).
  { rewrite He, length_app. reflexivity. }
  assert (is_empty e = false) as ->.
  { apply is_empty_false. intros E. rewrite E in Hlen_e. simpl in Hlen_e. lia. }
  assert ((len e >? 254)%Z = false) as ->.
  { destruct (Z.gtb_spec (len e) 254); [unfold len in *; lia | reflexivity]. }
  assert (test_space e = false) as ->.
  { destruct (test_space e) eqn:Hts; [|reflexivity].
    apply some_char_spec in Hts as (c & Hin & Hsp).
    rewrite He in Hin. apply in_app_string in Hin as [Hin | [<- | Hin]].
    - rewrite class_without_space in Hsp; [discriminate | auto].
    - discriminate Hsp.
    - rewrite class_without_space in Hsp; [discriminate | auto]. }
  assert (Hat : indexOf "@" e = Z.of_nat (String.length local)).
  { rewrite He. now apply indexOf_app. }
  rewrite Hat.
  assert ((Z.of_nat (String.length local) <=? 0)%Z = false) as ->
    by (apply Z.leb_gt; lia).
  assert ((Z.of_nat (String.length local) =? len e - 1)%Z = false) as ->
    by (apply Z.eqb_neq; unfold len; lia).
  cbn [orb]. unfold slice, slice_from.
  replace (Z.to_nat (Z.of_nat (String.length local) - 0))
    with (String.length local) by lia.
  replace (Z.to_nat (Z.of_nat (String.length local) + 1))
    with (S (String.length local)) by lia.
  change (drop (Z.to_nat 0) e) with e.
  assert (take (String.length local) e = local) as ->
    by (rewrite He; apply take_app_length).
  assert (drop (S (String.length local)) e = domain) as ->
    by (rewrite He; apply drop_app_succ).
  assert ((len local >? 64)%Z = false) as ->
    by (destruct (Z.gtb_spec (len local) 64); [unfold len in *; lia | reflexivity]).
  assert ((len domain <? 3)%Z = false) as ->
    by (unfold len; apply Z.ltb_ge; lia).
  rewrite (in_includes _ _ Hdot). cbn [negb].
  assert (test_plus local_class local = true) as ->.
  { unfold test_plus. rewrite (all_chars_class _ _ Hlc).
    destruct local; [simpl in Hl1; lia | reflexivity]. }
  assert (test_plus domain_class domain = true) as ->.
  { unfold test_plus. rewrite (all_chars_class _ _ Hdc).
    destruct domain; [simpl in Hd3; lia | reflexivity]. }
  cbn [negb].
  destruct (startsWith domain ".") eqn:E1;
    [apply startsWith_spec in E1; contradiction|].
  destruct (endsWith domain ".") eqn:E2;
    [apply endsWith_spec in E2; contradiction|].
  destruct (includes domain "..") eqn:E3;
    [apply includes_spec in E3; contradiction|].
  reflexivity.
Qed.

(** X8.  [normalizeEmail] returns an address exactly when the trimmed,
    lowercased input is at most 254 characters long and is a local part of
    1 to 64 characters of [a-z0-9.!#$%&'*+/=?^_`{|}~-], an [@], and a
    domain of at least 3 characters of [a-z0-9.-] that has a dot, does not
    start or end with one and has no two in a row; the address returned is
    that trimmed, lowercased input. *)
Theorem normalizeEmail_accepts_iff (raw e : string) :
  normalizeEmail raw = Some e <->
  e = toLowerCase (trim raw) /\ email_accepted_form e.
Proof.
  split.
  - apply normalizeEmail_form.
  - intros [-> H]. now apply normalizeEmail_accepts.
Qed.

Lemma toLowerCase_fixed (s : string) :
  (forall c, In c (chars s) -> lower_char c = c) -> toLowerCase s = s.
Proof.
  induction s as [|c s IH]; intros H; simpl; [reflexivity|].
  rewrite IH by (intros d Hd; apply H; now right).
  now rewrite (H c (or_introl eq_refl)).
Qed.

(** X7.  An address [normalizeEmail] returns is returned unchanged when
    normalized again: the stored email passes the validator as it is. *)
Theorem normalizeEmail_idempotent (raw e : string) :
  normalizeEmail raw = Some e -> normalizeEmail e = Some e.
Proof.
  intros H. destruct (normalizeEmail_form _ _ H) as [_ Hform].
  assert (Hc : forall c, In c (chars e) ->
                         lower_char c = c /\ is_space c = false).
  { destruct Hform as (_ & local & domain & -> & _ & _ & Hlc & Hdc & _).
    intros c Hin. apply in_app_string in Hin as [Hin | [<- | Hin]].
    - split; [apply class_lowercase | apply class_without_space]; auto.
    - split; reflexivity.
    - split; [apply class_lowercase | apply class_without_space]; auto. }
  assert (Hfix : toLowerCase (trim e) = e).
  { rewrite trim_without_space by (intros c Hin; now apply Hc).
    apply toLowerCase_fixed. intros c Hin. now apply Hc. }
  pose proof (normalizeEmail_accepts e) as Hacc. rewrite Hfix in Hacc.
  exact (Hacc Hform).
Qed.

End ValidatorsAgain.

(** ** How a run can end *)

Section Outcomes.
Import Js.

Variable scrypt : string -> list byte -> nat -> error + list byte.

Lemma usage_refused {A} (msg : string) (w : world) :
  @usage A msg w = (Exit 1, refused msg w).
Proof.
  unfold usage, bind, console_error, process_exit, refused, usage_lines.
  cbn. now rewrite <- !app_assoc.
Qed.

Lemma missing_user_refused (e : env) (h : host) (w : world) :
  ADMIN_USER e = "" ->
  script scrypt e h w = (1, refused "Missing ADMIN_USER." w).
Proof.
  intros H. unfold script, bind. rewrite H. cbn [is_empty].
  now rewrite usage_refused.
Qed.

Lemma missing_pass_refused (e : env) (h : host) (w : world) :
  ADMIN_USER e <> "" -> ADMIN_PASS e = "" ->
  script scrypt e h w = (1, refused "Missing ADMIN_PASS." w).
Proof.
  intros Hu H. unfold script, bind. apply is_empty_false in Hu.
  rewrite Hu, H. cbn [is_empty ret]. now rewrite usage_refused.
Qed.

Lemma invalid_user_refused (e : env) (h : host) (w : world) :
  ADMIN_USER e <> "" -> ADMIN_PASS e <> "" ->
  cleanUsername (ADMIN_USER e) = None ->
  script scrypt e h w =
    (1, refused "Invalid ADMIN_USER (3-32 chars, letters/digits/._- only)." w).
Proof.
  intros Hu Hp H. unfold script, bind, try_catch, main, bind.
  apply is_empty_false in Hu, Hp. rewrite Hu, Hp. cbn [ret]. rewrite H.
  now rewrite usage_refused.
Qed.

Lemma invalid_pass_refused (e : env) (h : host) (w : world) (n : string) :
  ADMIN_PASS e <> "" ->
  cleanUsername (ADMIN_USER e) = Some n ->
  normalizePassword (ADMIN_PASS e) = None ->
  script scrypt e h w = (1, refused "Invalid ADMIN_PASS (min 8 chars)." w).
Proof.
  intros Hp Hn H. unfold script, bind, try_catch, main, bind.
  apply is_empty_false in Hp.
  rewrite (cleanUsername_nonempty _ _ Hn), Hp. cbn [ret]. rewrite Hn.
  cbn [ret]. rewrite H. now rewrite usage_refused.
Qed.

Lemma invalid_email_refused (e : env) (h : host) (w : world) (n p : string) :
  cleanUsername (ADMIN_USER e) = Some n ->
  normalizePassword (ADMIN_PASS e) = Some p ->
  ADMIN_EMAIL e <> "" -> normalizeEmail (ADMIN_EMAIL e) = None ->
  script scrypt e h w = (1, refused "Invalid ADMIN_EMAIL." w).
Proof.
  intros Hn Hp Hne H. unfold script, bind, try_catch, main, bind.
  rewrite (cleanUsername_nonempty _ _ Hn), (normalizePassword_nonempty _ _ Hp).
  cbn [ret]. rewrite Hn, Hp. cbn [ret].
  apply is_empty_false in Hne. rewrite Hne, H. cbn [negb andb is_null].
  now rewrite usage_refused.
Qed.

(** The inputs are refused, or they are valid. *)
Lemma config_cases (e : env) (h : host) (w : world) :
  (config_error e /\ exists msg, script scrypt e h w = (1, refused msg w)) \/
  (exists n p, valid_config e n p).
Proof.
  destruct (is_empty (ADMIN_USER e)) eqn:Hu.
  { apply is_empty_true in Hu. left. split; [now left|].
    eexists. now apply missing_user_refused. }
  apply is_empty_false in Hu.
  destruct (is_empty (ADMIN_PASS e)) eqn:Hp.
  { apply is_empty_true in Hp. left. split; [right; now left|].
    eexists. now apply missing_pass_refused. }
  apply is_empty_false in Hp.
  destruct (cleanUsername (ADMIN_USER e)) as [n|] eqn:Hn.
  2:{ left. split; [right; right; now left|].
      eexists. now apply invalid_user_refused. }
  destruct (normalizePassword (ADMIN_PASS e)) as [p|] eqn:Hnp.
  2:{ left. split; [right; right; right; now left|].
      eexists. now apply (invalid_pass_refused e h w n). }
  destruct (is_empty (ADMIN_EMAIL e)) eqn:He.
  { apply is_empty_true in He. right. exists n, p. repeat split; auto. }
  apply is_empty_false in He.
  destruct (normalizeEmail (ADMIN_EMAIL e)) as [a|] eqn:Ha.
  - right. exists n, p. repeat split; auto. right. congruence.
  - left. split; [right; right; right; right; now split|].
    eexists. now apply (invalid_email_refused e h w n p).
Qed.

Ltac enter_store e Hcfg :=
  let Hem := fresh "Hem" in
  let Hu := fresh "Hu" in
  let Hp := fresh "Hp" in
  pose proof (valid_config_email _ _ _ Hcfg) as Hem;
  destruct Hcfg as (Hu & Hp & _);
  unfold script, main, bind, try_catch;
  rewrite (cleanUsername_nonempty _ _ Hu), (normalizePassword_nonempty _ _ Hp);
  cbn [ret]; rewrite Hu, Hp; cbn [ret];
  fold (email_of e);
  rewrite Hem; cbn [ret mkdir];
  rewrite load_run; cbn [users_file traced lift].

Ltac close_aborted :=
  unfold aborted, console_error, process_exit, writeFile, rename; cbn;
  rewrite <- ?app_assoc; reflexivity.

Lemma find_throws_aborts (e : env) (h : host) (w : world) (n p : string)
    (err : error) :
  valid_config e n p ->
  find n (users_of (load_db (users_file w))) = inl err ->
  script scrypt e h w = (1, aborted [Mkdir; ReadFile] (tmp_file w) err w).
Proof.
  intros Hcfg Hfind. enter_store e Hcfg. rewrite Hfind. close_aborted.
Qed.

Lemma scrypt_error_aborts (e : env) (h : host) (w : world) (n p : string)
    (found : option (nat * json)) (err : error) :
  valid_config e n p ->
  find n (users_of (load_db (users_file w))) = inr found ->
  scrypt p (randomBytes16 h) 64 = inl err ->
  script scrypt e h w = (1, aborted [Mkdir; ReadFile] (tmp_file w) err w).
Proof.
  intros Hcfg Hfind Hkey. enter_store e Hcfg. rewrite Hfind.
  unfold scryptAsync. rewrite Hkey. close_aborted.
Qed.

Lemma update_throws_aborts (e : env) (h : host) (w : world) (n p : string)
    (found : option (nat * json)) (derived : list byte) (err : error) :
  valid_config e n p ->
  find n (users_of (load_db (users_file w))) = inr found ->
  scrypt p (randomBytes16 h) 64 = inr derived ->
  upsert h n (email_of e) (randomBytes16 h) derived (or_null found)
    (load_db (users_file w)) = inl err ->
  script scrypt e h w = (1, aborted [Mkdir; ReadFile] (tmp_file w) err w).
Proof.
  intros Hcfg Hfind Hkey Hup. enter_store e Hcfg. rewrite Hfind.
  unfold scryptAsync. rewrite Hkey. cbn [ret lift]. rewrite Hup. close_aborted.
Qed.

Lemma write_fault_aborts (e : env) (h : host) (w : world) (n p : string)
    (found : option (nat * json)) (derived : list byte) (db : json)
    (en : errno) (leftover : file) :
  valid_config e n p ->
  find n (users_of (load_db (users_file w))) = inr found ->
  scrypt p (randomBytes16 h) 64 = inr derived ->
  upsert h n (email_of e) (randomBytes16 h) derived (or_null found)
    (load_db (users_file w)) = inr db ->
  write_fault h = Some (en, leftover) ->
  script scrypt e h w =
    (1, aborted [Mkdir; ReadFile; WriteFile] leftover (SystemError en) w).
Proof.
  intros Hcfg Hfind Hkey Hup Hw. enter_store e Hcfg. rewrite Hfind.
  unfold scryptAsync. rewrite Hkey. cbn [ret lift]. rewrite Hup.
  unfold writeFile. rewrite Hw. close_aborted.
Qed.

Lemma rename_fault_aborts (e : env) (h : host) (w : world) (n p : string)
    (found : option (nat * json)) (derived : list byte) (db : json)
    (en : errno) :
  valid_config e n p ->
  find n (users_of (load_db (users_file w))) = inr found ->
  scrypt p (randomBytes16 h) 64 = inr derived ->
  upsert h n (email_of e) (randomBytes16 h) derived (or_null found)
    (load_db (users_file w)) = inr db ->
  write_fault h = None ->
  rename_fault h = Some en ->
  script scrypt e h w =
    (1, aborted [Mkdir; ReadFile; WriteFile; Rename]
          (Holds (Json (serialized db))) (SystemError en) w).
Proof.
  intros Hcfg Hfind Hkey Hup Hw Hr. enter_store e Hcfg. rewrite Hfind.
  unfold scryptAsync. rewrite Hkey. cbn [ret lift]. rewrite Hup.
  unfold writeFile, rename. rewrite Hw, Hr. close_aborted.
Qed.

Lemma upsert_shape (h : host) (n : string) (email : option string)
    (salt derived : list byte) (u : option (nat * json)) (f : file) (db : json) :
  upsert h n email salt derived u (load_db f) = inr db -> collection_shape db.
Proof.
  destruct (load_db_object f) as (ps & l & -> & _). unfold upsert.
  assert (H : forall l', collection_shape (with_users (JObj ps) l')).
  { intros l'. exists (assign_prop "users" (JArr l') ps), l'.
    split; [reflexivity | apply lookup_assign_eq]. }
  destruct u as [[i x]|].
  - destruct (update_record h n email salt derived x); [discriminate|].
    intros [= <-]. apply H.
  - intros [= <-]. apply H.
Qed.

(** Every way the script can end. *)
Lemma script_outcome (e : env) (h : host) (w : world) :
  (config_error e /\ exists msg, script scrypt e h w = (1, refused msg w)) \/
  (exists n p tr tmp err,
     valid_config e n p /\
     In tr [[Mkdir; ReadFile]; [Mkdir; ReadFile; WriteFile];
            [Mkdir; ReadFile; WriteFile; Rename]] /\
     script scrypt e h w = (1, aborted tr tmp err w)) \/
  (exists n p db,
     valid_config e n p /\ collection_shape db /\
     script scrypt e h w = (0, committed e n db w)).
Proof.
  destruct (config_cases e h w) as [H | (n & p & Hcfg)]; [now left | right].
  destruct (find n (users_of (load_db (users_file w)))) as [err|found] eqn:Hfind.
  { left. exists n, p, [Mkdir; ReadFile], (tmp_file w), err.
    split; [exact Hcfg|]. split; [now left|]. now apply (find_throws_aborts e h w n p). }
  destruct (scrypt p (randomBytes16 h) 64) as [err|k] eqn:Hkey.
  { left. exists n, p, [Mkdir; ReadFile], (tmp_file w), err.
    split; [exact Hcfg|]. split; [now left|].
    now apply (scrypt_error_aborts e h w n p found). }
  destruct (upsert h n (email_of e) (randomBytes16 h) k (or_null found)
              (load_db (users_file w))) as [err|db] eqn:Hup.
  { left. exists n, p, [Mkdir; ReadFile], (tmp_file w), err.
    split; [exact Hcfg|]. split; [now left|].
    now apply (update_throws_aborts e h w n p found k). }
  destruct (write_fault h) as [[en leftover]|] eqn:Hw.
  { left. exists n, p, [Mkdir; ReadFile; WriteFile], leftover, (SystemError en).
    split; [exact Hcfg|]. split; [right; now left|].
    now apply (write_fault_aborts e h w n p found k db). }
  destruct (rename_fault h) as [en|] eqn:Hr.
  { left. exists n, p, [Mkdir; ReadFile; WriteFile; Rename],
      (Holds (Json (serialized db))), (SystemError en).
    split; [exact Hcfg|]. split; [right; right; now left|].
    now apply (rename_fault_aborts e h w n p found k db). }
  right. exists n, p, (serialized db). split; [exact Hcfg|].
  split; [apply collection_shape_serialized; now apply upsert_shape in Hup|].
  apply (script_success scrypt e h w n p found k db); auto. now split.
Qed.

End Outcomes.

(** ** The store file, the system calls and the messages *)

Section Discipline.
Import Js.

Variable scrypt : string -> list byte -> nat -> error + list byte.

Lemma committed_trace (e : env) (n : string) (db : json) (w : world) :
  trace (committed e n db w) =
    (trace w ++ [Mkdir; ReadFile; WriteFile; Rename])%list.
Proof. cbn. now rewrite <- !app_assoc. Qed.

(** X1.  The exit status is 0 or 1.  With status 0 the store file holds a
    collection (an object with an array [users]) and the temporary file is
    gone; with status 1 the store file is the one the run started with. *)
Theorem store_changes_only_on_success (e : env) (h : host) (w : world) :
  (fst (script scrypt e h w) = 0 /\
   tmp_file (snd (script scrypt e h w)) = Missing /\
   exists db, users_file (snd (script scrypt e h w)) = Holds (Json db) /\
              collection_shape db) \/
  (fst (script scrypt e h w) = 1 /\
   users_file (snd (script scrypt e h w)) = users_file w).
Proof.
  destruct (script_outcome scrypt e h w)
    as [(_ & msg & ->) | [(n & p & tr & tmp & err & _ & _ & ->) |
                          (n & p & db & _ & Hshape & ->)]].
  - right. split; reflexivity.
  - right. split; reflexivity.
  - left. split; [reflexivity|]. split; [reflexivity|]. now exists db.
Qed.

(** X2.  A run makes its system calls in one order, each at most once:
    nothing, or [mkdir] and [readFile], then [writeFile], then [rename].
    A run that exits with status 0 made all four. *)
Theorem syscalls_in_order (e : env) (h : host) (w : world) :
  exists tr,
    In tr run_traces /\
    trace (snd (script scrypt e h w)) = (trace w ++ tr)%list /\
    (fst (script scrypt e h w) = 0 ->
     tr = [Mkdir; ReadFile; WriteFile; Rename]).
Proof.
  destruct (script_outcome scrypt e h w)
    as [(_ & msg & ->) | [(n & p & tr & tmp & err & _ & Htr & ->) |
                          (n & p & db & _ & _ & ->)]].
  - exists []. split; [now left|]. split; [cbn; now rewrite app_nil_r|].
    discriminate.
  - exists tr. split; [right; exact Htr|]. split; [reflexivity | discriminate].
  - exists [Mkdir; ReadFile; WriteFile; Rename].
    split; [right; right; right; now left|].
    split; [apply committed_trace | reflexivity].
Qed.

(** X3.  The script makes no system call exactly when an input is missing
    or fails its validator: every check comes before [mkdir], and with
    valid inputs the directory is made and the file is read whatever
    happens afterwards. *)
Theorem no_syscall_iff_config_error (e : env) (h : host) (w : world) :
  trace (snd (script scrypt e h w)) = trace w <-> config_error e.
Proof.
  split.
  - destruct (script_outcome scrypt e h w)
      as [(Herr & _) | [(n & p & tr & tmp & err & _ & Htr & ->) |
                        (n & p & db & _ & _ & ->)]]; [auto | |].
    + cbn [snd aborted trace]. intros H.
      rewrite <- (app_nil_r (trace w)) in H at 2. apply app_inv_head in H.
      subst tr. cbn in Htr. intuition discriminate.
    + cbn [snd]. rewrite committed_trace. intros H.
      rewrite <- (app_nil_r (trace w)) in H at 2. apply app_inv_head in H.
      discriminate.
  - intros Herr. now destruct (config_error_no_io scrypt e h w Herr) as (_ & (_ & _ & ?) & _).
Qed.

(** X4.  The configuration checks run in a fixed order and the first one
    that fails decides the message: a missing user name, then a missing
    password, then an invalid user name, then an invalid password (the
    message says "min 8 chars" also for one longer than 256), then an
    invalid address.  Each ends the process with status 1 and prints the
    message followed by the two usage lines, and nothing else changes. *)
Theorem config_errors_by_priority (e : env) (h : host) (w : world) :
  (ADMIN_USER e = "" ->
   script scrypt e h w = (1, refused "Missing ADMIN_USER." w)) /\
  (ADMIN_USER e <> "" -> ADMIN_PASS e = "" ->
   script scrypt e h w = (1, refused "Missing ADMIN_PASS." w)) /\
  (ADMIN_USER e <> "" -> ADMIN_PASS e <> "" ->
   cleanUsername (ADMIN_USER e) = None ->
   script scrypt e h w =
     (1, refused "Invalid ADMIN_USER (3-32 chars, letters/digits/._- only)." w)) /\
  (ADMIN_PASS e <> "" -> cleanUsername (ADMIN_USER e) <> None ->
   (String.length (ADMIN_PASS e) < 8 \/ 256 < String.length (ADMIN_PASS e)) ->
   script scrypt e h w = (1, refused "Invalid ADMIN_PASS (min 8 chars)." w)) /\
  (cleanUsername (ADMIN_USER e) <> None ->
   8 <= String.length (ADMIN_PASS e) <= 256 ->
   ADMIN_EMAIL e <> "" -> normalizeEmail (ADMIN_EMAIL e) = None ->
   script scrypt e h w = (1, refused "Invalid ADMIN_EMAIL." w)).
Proof.
  split; [apply missing_user_refused|].
  split; [apply missing_pass_refused|].
  split; [apply invalid_user_refused|].
  split.
  - intros Hp Hn Hlen.
    destruct (cleanUsername (ADMIN_USER e)) as [n|] eqn:E; [|contradiction].
    apply (invalid_pass_refused scrypt e h w n); auto.
    unfold normalizePassword, len.
    destruct (Z.ltb_spec (Z.of_nat (String.length (ADMIN_PASS e))) 8);
      [reflexivity|].
    destruct (Z.gtb_spec (Z.of_nat (String.length (ADMIN_PASS e))) 256);
      [reflexivity | lia].
  - intros Hn Hlen Hne Hbad.
    destruct (cleanUsername (ADMIN_USER e)) as [n|] eqn:E; [|contradiction].
    apply (invalid_email_refused scrypt e h w n (ADMIN_PASS e)); auto.
    unfold normalizePassword, len.
    destruct (Z.ltb_spec (Z.of_nat (String.length (ADMIN_PASS e))) 8); [lia|].
    destruct (Z.gtb_spec (Z.of_nat (String.length (ADMIN_PASS e))) 256);
      [lia | reflexivity].
Qed.

(** X5.  [ADMIN_USER] is chosen before it is trimmed: when the variable
    [ADMIN_USER] holds only white space, the script does not fall back to
    [ADMIN_USERNAME] but stops with "Missing ADMIN_USER.", whatever the
    other variables hold. *)
Theorem blank_user_hides_username (e : env) (h : host) (w : world) (s : string) :
  env_ADMIN_USER e = Some s -> s <> "" -> trim s = "" ->
  script scrypt e h w = (1, refused "Missing ADMIN_USER." w).
Proof.
  intros Hs Hne Ht. apply missing_user_refused.
  unfold ADMIN_USER, or_else. rewrite Hs.
  apply is_empty_false in Hne. now rewrite Hne.
Qed.

End Discipline.

(** ** Failures after validation *)

Section Failures.
Import Js.

Variable scrypt : string -> list byte -> nat -> error + list byte.

Lemma upsert_without_faults (h : host) (n : string) (email : option string)
    (salt derived : list byte) (u : option (nat * json)) (db : json) :
  upsert (without_faults h) n email salt derived u db =
  upsert h n email salt derived u db.
Proof. reflexivity. Qed.

(** X9.  With valid inputs, when the lookup throws, when [scrypt] reports
    an error, or when the update throws, the script prints the error and
    exits with status 1 after [mkdir] and [readFile] only: [writeFile] and
    [rename] are not called and both files are as they were. *)
Theorem failure_before_persist (e : env) (h : host) (w : world)
    (n p : string) (err : error) :
  valid_config e n p ->
  (find n (users_of (load_db (users_file w))) = inl err \/
   (exists found,
      find n (users_of (load_db (users_file w))) = inr found /\
      scrypt p (randomBytes16 h) 64 = inl err) \/
   (exists found derived,
      find n (users_of (load_db (users_file w))) = inr found /\
      scrypt p (randomBytes16 h) 64 = inr derived /\
      upsert h n (email_of e) (randomBytes16 h) derived (or_null found)
        (load_db (users_file w)) = inl err)) ->
  script scrypt e h w = (1, aborted [Mkdir; ReadFile] (tmp_file w) err w).
Proof.
  intros Hcfg [Hf | [(found & Hf & Hk) | (found & k & Hf & Hk & Hup)]].
  - now apply (find_throws_aborts scrypt e h w n p).
  - now apply (scrypt_error_aborts scrypt e h w n p found).
  - now apply (update_throws_aborts scrypt e h w n p found k).
Qed.

(** X10.  Take a run that succeeds when the writing calls do not fail.  If
    [writeFile] fails instead, the script exits with status 1 without
    calling [rename]: the store file is the one the run started with, and
    the temporary path holds what the failed write left there. *)
Theorem write_failure_keeps_store (e : env) (h : host) (w : world)
    (en : errno) (leftover : file) :
  fst (script scrypt e (without_faults h) w) = 0 ->
  write_fault h = Some (en, leftover) ->
  script scrypt e h w =
    (1, aborted [Mkdir; ReadFile; WriteFile] leftover (SystemError en) w).
Proof.
  intros H0 Hw.
  destruct (script_success_inv scrypt e (without_faults h) w H0)
    as (n & p & found & k & db & Hcfg & Hf & Hk & Hup & _ & _).
  rewrite upsert_without_faults in Hup.
  now apply (write_fault_aborts scrypt e h w n p found k db).
Qed.

(** X11.  Take a run that succeeds when the writing calls do not fail.  If
    [writeFile] succeeds and [rename] fails, the script exits with status
    1: the store file is the one the run started with, and the temporary
    file is left behind holding the collection the run would have
    committed. *)
Theorem rename_failure_keeps_store (e : env) (h : host) (w : world) (en : errno) :
  fst (script scrypt e (without_faults h) w) = 0 ->
  write_fault h = None ->
  rename_fault h = Some en ->
  script scrypt e h w =
    (1, aborted [Mkdir; ReadFile; WriteFile; Rename]
          (users_file (snd (script scrypt e (without_faults h) w)))
          (SystemError en) w).
Proof.
  intros H0 Hw Hr.
  destruct (script_success_inv scrypt e (without_faults h) w H0)
    as (n & p & found & k & db & Hcfg & Hf & Hk & Hup & _ & ->).
  rewrite upsert_without_faults in Hup.
  now apply (rename_fault_aborts scrypt e h w n p found k db).
Qed.

End Failures.

(** ** The record a run leaves *)

Section Records.
Import Js.

Variable scrypt : string -> list byte -> nat -> error + list byte.

(** Case analysis on the tests of [update_props], innermost first, so that
    each test is about the properties of the record as it was. *)
Ltac split_tests :=
  repeat (cbn [negb]; autorewrite with props;
          match goal with
          | |- context [if negb ?b then _ else _] =>
              lazymatch b with
              | context [if _ then _ else _] => fail
              | _ => destruct b eqn:?
              end
          | |- context [if ?b then _ else _] =>
              lazymatch b with
              | context [if _ then _ else _] => fail
              | _ => destruct b eqn:?
              end
          end);
  cbn [negb]; autorewrite with props.

Lemma update_props_backfill h n email salt derived ps :
  let ps' := update_props h n email salt derived ps in
  lookup_prop "quota" ps' =
    (if is_number (lookup_prop "quota" ps) then lookup_prop "quota" ps
     else Some (JNum "-1")) /\
  lookup_prop "unlocked" ps' =
    (if isArray (lookup_prop "unlocked" ps) then lookup_prop "unlocked" ps
     else Some (JArr [])) /\
  lookup_prop "contentTokens" ps' =
    (if isArray (lookup_prop "contentTokens" ps)
     then lookup_prop "contentTokens" ps else Some (JArr [])) /\
  lookup_prop "email" ps' =
    match email with
    | Some a => Some (JStr a)
    | None => lookup_prop "email" ps
    end.
Proof.
  unfold update_props; cbv zeta.
  destruct email; repeat split; split_tests; reflexivity.
Qed.

(** X13.  When a successful run updates a matched record, [quota] is kept
    if it is a number and set to [-1] otherwise, [unlocked] and
    [contentTokens] are kept if they are arrays and set to the empty array
    otherwise, and [email] is replaced only when an address was given.  A
    value that is kept is in the store as [JSON.stringify] writes it: a
    [quota] beyond the range of a double is kept as a number in memory
    and written as [null]. *)
Theorem update_backfills_defaults (e : env) (h : host) (w : world)
    (n : string) (i : nat) (ps : props) :
  fst (script scrypt e h w) = 0 ->
  cleanUsername (ADMIN_USER e) = Some n ->
  find n (users_of (load_db (users_file w))) = inr (Some (i, JObj ps)) ->
  exists db' ps',
    users_file (snd (script scrypt e h w)) = Holds (Json db') /\
    users_of db' !! i = Some (JObj ps') /\
    lookup_prop "quota" ps' =
      option_map serialized
        (if is_number (lookup_prop "quota" ps) then lookup_prop "quota" ps
         else Some (JNum "-1")) /\
    (forall r, lookup_prop "quota" ps = Some (JNum r) ->
               lookup_prop "quota" ps' =
               Some (if is_finite r then JNum r else JNull)) /\
    lookup_prop "unlocked" ps' =
      option_map serialized
        (if isArray (lookup_prop "unlocked" ps) then lookup_prop "unlocked" ps
         else Some (JArr [])) /\
    lookup_prop "contentTokens" ps' =
      option_map serialized
        (if isArray (lookup_prop "contentTokens" ps)
         then lookup_prop "contentTokens" ps else Some (JArr [])) /\
    lookup_prop "email" ps' =
      match email_of e with
      | Some a => Some (JStr a)
      | None => option_map serialized (lookup_prop "email" ps)
      end.
Proof.
  intros H0 Hn Hfind.
  destruct (matched_record_updated scrypt e h w n i ps H0 Hn Hfind)
    as (p & derived & mem & _ & _ & Hrun & _ & Hus & Hi).
  exists (serialized mem),
    (serialized_props serialized
       (update_props h n (email_of e) (randomBytes16 h) derived ps)).
  rewrite Hrun. split; [reflexivity|].
  split; [now apply (written_insert_eq mem _ i _ Hus)|].
  destruct (update_props_backfill h n (email_of e) (randomBytes16 h) derived ps)
    as (Hq & Hun & Hct & Hem).
  rewrite !lookup_serialized, Hq, Hun, Hct, Hem.
  split; [reflexivity|]. split; [now intros r ->|].
  split; [reflexivity|]. split; [reflexivity|].
  now destruct (email_of e).
Qed.


(** X12.  After a successful run in which the entry found for the user
    name, if there was one, is an object, the record the run appended, or
    put in the place of that entry, is in the store with the user name
    and the hexadecimal text of the salt drawn in this run and of the key
    [scrypt] derived, with that salt, from [ADMIN_PASS] exactly as the
    environment gave it: the password is neither trimmed nor changed, and
    a non-empty [ADMIN_PASS] variable is the password whatever
    [ADMIN_PASSWORD] holds. *)
Theorem stored_credential_matches_password (e : env) (h : host) (w : world)
    (n : string) :
  fst (script scrypt e h w) = 0 ->
  cleanUsername (ADMIN_USER e) = Some n ->
  (forall j x, find n (users_of (load_db (users_file w))) = inr (Some (j, x)) ->
               is_object x = true) ->
  (exists db' i r derived,
     users_file (snd (script scrypt e h w)) = Holds (Json db') /\
     users_of db' !! i = Some r /\
     ((find n (users_of (load_db (users_file w))) = inr None /\
       i = length (users_of (load_db (users_file w)))) \/
      (exists x, find n (users_of (load_db (users_file w))) =
                   inr (Some (i, x)))) /\
     get r "username" = Some (JStr n) /\
     scrypt (ADMIN_PASS e) (randomBytes16 h) 64 = inr derived /\
     get r "salt" = Some (JStr (toHex (randomBytes16 h))) /\
     get r "passHash" = Some (JStr (toHex derived))) /\
  (forall s, env_ADMIN_PASS e = Some s -> s <> "" -> ADMIN_PASS e = s) /\
  (forall s, (env_ADMIN_PASS e = None \/ env_ADMIN_PASS e = Some "") ->
             env_ADMIN_PASSWORD e = Some s -> ADMIN_PASS e = s).
Proof.
  intros H0 Hn Hobj. split.
  - destruct (admin_record_cases scrypt e h w n H0 Hn Hobj)
      as (p & derived & mem & i & r & Hp & Hkey & Hrun & Hi & Hu & _ & Hs & Hh
          & Hcase).
    assert (p = ADMIN_PASS e) as ->.
    { unfold normalizePassword in Hp. destruct (_ || _)%bool; congruence. }
    exists (serialized mem), i, (serialized r), derived.
    rewrite Hrun. split; [reflexivity|].
    split; [now rewrite users_of_serialized, lookup_map, Hi|].
    split; [|auto].
    destruct Hcase as [(Hf & _ & Hlen) | (x & Hf & _)]; [now left|].
    right. now exists x.
  - unfold ADMIN_PASS, or_else. split.
    + intros s -> Hs. apply is_empty_false in Hs. now rewrite Hs.
    + intros s [-> | ->] ->; cbn [is_empty]; now destruct s.
Qed.

Lemma users_of_member_shape (db : json) (r : json) :
  In r (users_of db) -> truthy db && isArray (get db "users") = true.
Proof.
  unfold users_of. destruct db as [| | | | |ps]; cbn [get]; try (intros []).
  destruct (lookup_prop "users" ps) as [[]|]; try (intros []). reflexivity.
Qed.

Lemma is_object_get (r : json) (k : string) (v : json) :
  get r k = Some v -> is_object r = true.
Proof. now destruct r. Qed.

(** X15.  On a collection of objects, a second successful run for the same
    user name adds no record: the collection has the length and the number
    of records with that name that the first run left. *)
Theorem rerun_adds_no_record (e : env) (h1 h2 : host) (w : world) (n : string) :
  fst (script scrypt e h1 w) = 0 ->
  fst (script scrypt e h2 (snd (script scrypt e h1 w))) = 0 ->
  cleanUsername (ADMIN_USER e) = Some n ->
  Forall (fun x => is_object x = true) (users_of (load_db (users_file w))) ->
  length (persisted (snd (script scrypt e h2 (snd (script scrypt e h1 w))))) =
    length (persisted (snd (script scrypt e h1 w))) /\
  count_named n
      (persisted (snd (script scrypt e h2 (snd (script scrypt e h1 w))))) =
    count_named n (persisted (snd (script scrypt e h1 w))).
Proof.
  intros H1 H2 Hn Hobj.
  destruct (admin_record_cases scrypt e h1 w n H1 Hn)
    as (p & d & mem & i & r & _ & _ & Hrun1 & Hi & Hu & _ & _ & _ & Hcase).
  { intros j x Hf. destruct (find_Some _ _ _ _ Hf) as (Hj & _).
    now destruct (Forall_object_lookup _ _ _ Hobj Hj) as (ps & ->). }
  set (w1 := snd (script scrypt e h1 w)) in *.
  set (l1 := List.map serialized (users_of mem)).
  assert (Hfile1 : users_file w1 = Holds (Json (serialized mem)))
    by (unfold w1; now rewrite Hrun1).
  assert (Hus1 : users_of (serialized mem) = l1) by apply users_of_serialized.
  assert (Hin : In (serialized r) l1)
    by (apply List.in_map; eapply lookup_In; eauto).
  assert (Hnamed : named n (serialized r) = true) by now apply named_get_username.
  assert (Hload : load_db (users_file w1) = serialized mem).
  { rewrite Hfile1. apply load_db_loaded.
    apply (users_of_member_shape _ (serialized r)). now rewrite Hus1. }
  assert (Hobj1 : Forall (fun x => is_object x = true) l1).
  { assert (Hr : is_object r = true).
    { rewrite <- is_object_serialized. exact (is_object_get _ _ _ Hu). }
    assert (Hm : Forall (fun x => is_object x = true) (users_of mem)).
    { destruct Hcase as [(_ & -> & _) | (x & _ & _ & ->)].
      - apply Forall_app. split; [exact Hobj | now constructor].
      - now apply Forall_insert. }
    unfold l1. clear -Hm. induction Hm as [|x l Hx _ IH]; cbn; constructor;
      [now rewrite is_object_serialized | exact IH]. }
  assert (Hfix : List.map serialized l1 = l1)
    by apply map_serialized_finite, Forall_finite_map_serialized.
  destruct (success_cases scrypt e h2 w1 H2)
    as (n' & p2 & d2 & mem2 & Hcfg & _ & Hrun2 & _ & Hcase2).
  assert (n' = n) as -> by (destruct Hcfg as (Hu' & _); congruence).
  rewrite Hload, Hus1 in Hcase2.
  unfold persisted. rewrite Hrun2, Hfile1. cbn [snd users_file committed].
  rewrite !users_of_serialized. fold l1.
  destruct Hcase2 as [(found & Hf & Hor & _) | (j & x & x' & Hf & _ & Hx & ->)].
  - exfalso. destruct found as [[j y]|].
    + destruct (find_Some _ _ _ _ Hf) as (Hj & _).
      destruct (Forall_object_lookup _ _ _ Hobj1 Hj) as (qs & ->). discriminate.
    + pose proof (find_None _ _ Hf).
      pose proof (count_named_In n l1 _ Hin Hnamed). lia.
  - destruct (find_Some _ _ _ _ Hf) as (Hj & Hnx & _).
    destruct (Forall_object_lookup _ _ _ Hobj1 Hj) as (qs & ->).
    cbn in Hx. injection Hx as <-.
    rewrite map_insert, Hfix. split; [apply length_insert|].
    apply (count_named_insert n l1 j (JObj qs)); [exact Hj|].
    rewrite Hnx. apply named_get_username.
    now destruct (updated_record_written h2 n (email_of e) (randomBytes16 h2)
                    d2 qs).
Qed.

End Records.

(** ** The lookup, the output and the conditions of success *)

Section Lookup.
Import Js.

Variable scrypt : string -> list byte -> nat -> error + list byte.

(** X16.  The lookup returns the first entry whose key is the user name
    and looks no further: when no entry before it throws or has that key,
    it is found at its position whatever follows it, even entries on which
    the conversion to a string would throw. *)
Theorem find_first_match (n : string) (before after : list json) (x : json) :
  (forall y, In y before -> exists s, username_key y = inr s /\ s <> n) ->
  named n x = true ->
  find n (before ++ x :: after) = inr (Some (length before, x)).
Proof.
  intros Hbefore Hx. destruct (named_key _ _ Hx) as (s & Hs & Hsn).
  induction before as [|y t IH]; cbn [app find length].
  - now rewrite Hs, Hsn.
  - destruct (Hbefore y (or_introl eq_refl)) as (sy & Hy & Hne).
    rewrite Hy. apply String.eqb_neq in Hne. rewrite Hne.
    rewrite IH; [reflexivity|]. intros z Hz. apply Hbefore. now right.
Qed.

Lemma find_named_records (n : string) (us : list json) :
  Forall named_record us ->
  exists found, find n us = inr found /\
    (forall i x, found = Some (i, x) -> exists ps, x = JObj ps).
Proof.
  induction us as [|y t IH]; intros HF.
  - exists None. split; [reflexivity | discriminate].
  - inversion HF as [|? ? (ps & s & -> & Hs) Ht]; subst.
    destruct (IH Ht) as (found & Hfind & Hobj).
    cbn [find]. unfold username_key. cbn [truthy get]. rewrite Hs.
    cbn [String_ to_string].
    destruct (String.eqb s n).
    + eexists. split; [reflexivity|]. intros i x [= _ <-]. eauto.
    + rewrite Hfind. destruct found as [[j z]|].
      * eexists. split; [reflexivity|]. intros i x [= _ <-].
        now apply (Hobj j z).
      * exists None. split; [reflexivity | discriminate].
Qed.

(** X18.  With valid inputs, a store whose entries are all records with a
    string [username] (or no store, or one that is not a collection), a
    [scrypt] that returns a key and writing calls that do not fail, the
    script exits with status 0. *)
Theorem run_succeeds (e : env) (h : host) (w : world) (n p : string)
    (derived : list byte) :
  valid_config e n p ->
  Forall named_record (users_of (load_db (users_file w))) ->
  scrypt p (randomBytes16 h) 64 = inr derived ->
  no_fault h ->
  exists db, script scrypt e h w = (0, committed e n db w).
Proof.
  intros Hcfg HF Hkey Hnf.
  destruct (find_named_records n _ HF) as (found & Hfind & Hobj).
  assert (Hup : exists db,
    upsert h n (email_of e) (randomBytes16 h) derived (or_null found)
      (load_db (users_file w)) = inr db).
  { unfold upsert. destruct found as [[i x]|]; [|cbn; eauto].
    destruct (Hobj i x eq_refl) as (ps & ->). cbn. eauto. }
  destruct Hup as (db & Hup). exists (serialized db).
  now apply (script_success scrypt e h w n p found derived).
Qed.

(** X17.  Only a successful run writes to the standard output: it prints
    the user name, the path of the store and the restart notice, and
    nothing to the error stream.  A run that exits with status 1 prints
    nothing to the standard output and something to the error stream. *)
Theorem output_streams (e : env) (h : host) (w : world) :
  (fst (script scrypt e h w) = 0 /\
   stderr (snd (script scrypt e h w)) = stderr w /\
   exists n, cleanUsername (ADMIN_USER e) = Some n /\
     stdout (snd (script scrypt e h w)) = (stdout w ++ success_lines e n)%list) \/
  (fst (script scrypt e h w) = 1 /\
   stdout (snd (script scrypt e h w)) = stdout w /\
   exists lines, lines <> [] /\
     stderr (snd (script scrypt e h w)) = (stderr w ++ lines)%list).
Proof.
  destruct (script_outcome scrypt e h w)
    as [(_ & msg & ->) | [(n & p & tr & tmp & err & _ & _ & ->) |
                          (n & p & db & (Hn & _) & _ & ->)]].
  - right. split; [reflexivity|]. split; [reflexivity|].
    exists (usage_lines msg). split; [discriminate | reflexivity].
  - right. split; [reflexivity|]. split; [reflexivity|].
    exists [error_name err]. split; [discriminate | reflexivity].
  - left. split; [reflexivity|]. split; [reflexivity|].
    exists n. split; [exact Hn|]. cbn. now rewrite <- !app_assoc.
Qed.

End Lookup.

(** ** Concrete runs of the further properties *)

Lemma normalizeEmail_idempotent_witness :
  normalizeEmail "ops@example.com" = Some "ops@example.com".
Proof.
  apply (normalizeEmail_idempotent " Ops@Example.COM " "ops@example.com").
  reflexivity.
Defined.

Lemma blank_user_hides_username_witness :
  script sample_scrypt blank_user_env host1 (world_with Missing) =
    (1, refused "Missing ADMIN_USER." (world_with Missing)).
Proof.
  apply (blank_user_hides_username sample_scrypt blank_user_env host1
           (world_with Missing) "   ").
  - reflexivity.
  - discriminate.
  - reflexivity.
Defined.

Lemma failure_before_persist_witness :
  script failing_scrypt sample_env host1
      (world_with (Holds (Json store_with_ops))) =
    (1, aborted [Mkdir; ReadFile] Missing ScryptError
          (world_with (Holds (Json store_with_ops)))).
Proof.
  apply (failure_before_persist failing_scrypt sample_env host1
           (world_with (Holds (Json store_with_ops)))
           "root-ops" "correcthorse1" ScryptError).
  - exact sample_valid_config.
  - right; left. exists (Some (1, old_ops)). split; reflexivity.
Defined.

Lemma write_failure_keeps_store_witness :
  script sample_scrypt sample_env host_disk_full
      (world_with (Holds (Json store_with_ops))) =
    (1, aborted [Mkdir; ReadFile; WriteFile] (Holds (Garbage "{"))
          (SystemError ENOSPC) (world_with (Holds (Json store_with_ops)))).
Proof.
  apply (write_failure_keeps_store sample_scrypt sample_env host_disk_full
           (world_with (Holds (Json store_with_ops)))).
  - reflexivity.
  - reflexivity.
Defined.

Lemma rename_failure_keeps_store_witness :
  script sample_scrypt sample_env host_rename_denied
      (world_with (Holds (Json store_with_ops))) =
    (1, aborted [Mkdir; ReadFile; WriteFile; Rename]
          (users_file
             (snd (script sample_scrypt sample_env
                     (without_faults host_rename_denied)
                     (world_with (Holds (Json store_with_ops))))))
          (SystemError EACCES) (world_with (Holds (Json store_with_ops)))).
Proof.
  apply (rename_failure_keeps_store sample_scrypt sample_env host_rename_denied
           (world_with (Holds (Json store_with_ops))) EACCES).
  - reflexivity.
  - reflexivity.
  - reflexivity.
Defined.

Lemma sample_objects :
  Forall (fun x => is_object x = true)
    (users_of (load_db (users_file (world_with (Holds (Json store_with_ops)))))).
Proof. repeat constructor. Defined.

Lemma stored_credential_matches_password_witness :
  (exists db' i r derived,
     users_file (snd (script sample_scrypt email_env host1
                        (world_with (Holds (Json store_with_ops))))) =
       Holds (Json db') /\
     users_of db' !! i = Some r /\
     ((find "root-ops" (users_of store_with_ops) = inr None /\
       i = length (users_of store_with_ops)) \/
      (exists x, find "root-ops" (users_of store_with_ops) =
                   inr (Some (i, x)))) /\
     Js.get r "username" = Some (JStr "root-ops") /\
     sample_scrypt (ADMIN_PASS email_env) (randomBytes16 host1) 64 =
       inr derived /\
     Js.get r "salt" = Some (JStr (toHex (randomBytes16 host1))) /\
     Js.get r "passHash" = Some (JStr (toHex derived))) /\
  (forall s, env_ADMIN_PASS email_env = Some s -> s <> "" ->
             ADMIN_PASS email_env = s) /\
  (forall s, (env_ADMIN_PASS email_env = None \/
              env_ADMIN_PASS email_env = Some "") ->
             env_ADMIN_PASSWORD email_env = Some s -> ADMIN_PASS email_env = s).
Proof.
  apply (stored_credential_matches_password sample_scrypt email_env host1
           (world_with (Holds (Json store_with_ops))) "root-ops").
  - reflexivity.
  - reflexivity.
  - intros j x Hf. vm_compute in Hf. now injection Hf as <- <-.
Defined.

Lemma update_backfills_defaults_witness :
  exists db' ps',
    users_file (snd (script sample_scrypt email_env host1
                       (world_with (Holds (Json store_with_odd_ops))))) =
      Holds (Json db') /\
    users_of db' !! 1 = Some (JObj ps') /\
    Js.lookup_prop "quota" ps' = Some (JNum "-1") /\
    (forall r, Js.lookup_prop "quota" odd_ops_props = Some (JNum r) ->
               Js.lookup_prop "quota" ps' =
               Some (if Js.is_finite r then JNum r else JNull)) /\
    Js.lookup_prop "unlocked" ps' = Some (JArr [JStr "a"]) /\
    Js.lookup_prop "contentTokens" ps' = Some (JArr []) /\
    Js.lookup_prop "email" ps' = Some (JStr "ops@example.com").
Proof.
  apply (update_backfills_defaults sample_scrypt email_env host1
           (world_with (Holds (Json store_with_odd_ops))) "root-ops" 1
           odd_ops_props).
  - reflexivity.
  - reflexivity.
  - reflexivity.
Defined.


Lemma rerun_adds_no_record_witness :
  length (persisted (snd (script sample_scrypt sample_env host2
                            (snd (script sample_scrypt sample_env host1
                                    (world_with (Holds (Json store_with_ops)))))))) =
    length (persisted (snd (script sample_scrypt sample_env host1
                              (world_with (Holds (Json store_with_ops)))))) /\
  count_named "root-ops"
      (persisted (snd (script sample_scrypt sample_env host2
                         (snd (script sample_scrypt sample_env host1
                                 (world_with (Holds (Json store_with_ops)))))))) =
    count_named "root-ops"
      (persisted (snd (script sample_scrypt sample_env host1
                         (world_with (Holds (Json store_with_ops)))))).
Proof.
  apply (rerun_adds_no_record sample_scrypt sample_env host1 host2
           (world_with (Holds (Json store_with_ops))) "root-ops").
  - reflexivity.
  - reflexivity.
  - reflexivity.
  - exact sample_objects.
Defined.

Lemma find_first_match_witness :
  find "root-ops"
    ([alice] ++ old_ops :: [JObj [("username", JObj [("toString", JNull)])]]) =
    inr (Some (length [alice], old_ops)).
Proof.
  apply (find_first_match "root-ops" [alice] _ old_ops).
  - intros y [<- | []]. exists "alice". split; [reflexivity | discriminate].
  - reflexivity.
Defined.

Lemma run_succeeds_witness :
  exists db,
    script sample_scrypt email_env host1
      (world_with (Holds (Json store_with_ops))) =
    (0, committed email_env "root-ops" db
          (world_with (Holds (Json store_with_ops)))).
Proof.
  apply (run_succeeds sample_scrypt email_env host1
           (world_with (Holds (Json store_with_ops)))
           "root-ops" "correcthorse1" (repeat x07 64)).
  - repeat split. right. discriminate.
  - repeat constructor; do 2 eexists; split; reflexivity.
  - reflexivity.
  - exact sample_no_fault1.
Defined.
